(** * ClientInfoGatherer: user-agent classification and public-IP lookup

    A shallow embedding of the two routines of [src/index.js] that carry
    logic: the user-agent helper methods ([getBrowserName] ...
    [getArchitecture]) and the service loop of [gatherNetworkInfo].

    Strings are Rocq strings.  Every pattern the source searches for is
    ASCII, so reading a user agent as its UTF-8 bytes gives the same answers
    as JavaScript gives on UTF-16 code units. *)

From Stdlib Require Import String Ascii List Arith Lia Floats.SpecFloat.
From stdpp Require Import gmap strings.

Set Warnings "-register-all".
Open Scope string_scope.

(** ** JavaScript string primitives *)

Module JSString.

(** [s.startsWith(p)]. *)
Fixpoint startsWith (s p : string) : bool :=
  match p with
  | EmptyString => true
  | String a p' =>
      match s with
      | EmptyString => false
      | String b s' => Ascii.eqb a b && startsWith s' p'
      end
  end.

(** [s.includes(sub)]: [sub] occurs at some position of [s]. *)
Fixpoint includes (s sub : string) : bool :=
  startsWith s sub
  || match s with
     | EmptyString => false
     | String _ s' => includes s' sub
     end.

(** [s.slice(0, n)]. *)
Fixpoint sliceTo (n : nat) (s : string) : string :=
  match n, s with
  | S n', String a s' => String a (sliceTo n' s')
  | _, _ => EmptyString
  end.

(** [s.slice(n)]. *)
Fixpoint sliceFrom (n : nat) (s : string) : string :=
  match n, s with
  | S n', String _ s' => sliceFrom n' s'
  | _, _ => s
  end.

(** [s.replace(/x/g, y)] for single characters [x] and [y]. *)
Fixpoint replaceAll (from to : ascii) (s : string) : string :=
  match s with
  | EmptyString => EmptyString
  | String a s' =>
      String (if Ascii.eqb a from then to else a) (replaceAll from to s')
  end.

(** The first character of [s], if any, satisfies [p]. *)
Definition headIs (p : ascii -> bool) (s : string) : bool :=
  match s with
  | EmptyString => false
  | String a _ => p a
  end.

(** No proper suffix of [L] is also a prefix of [L]: two occurrences of
    [L] cannot overlap. *)
Definition unbordered (L : string) : bool :=
  forallb (fun k => negb (startsWith L (sliceFrom k L)))
          (seq 1 (String.length L - 1)).

End JSString.

Import JSString.

(** ** The fragment of JavaScript regular expressions the source uses

    Literal text, [\d], a bracket class, [+] on a single-character class
    (greedy), alternation and one capturing group.  Matching is the
    backtracking search of the language: alternatives and repetitions are
    tried in priority order, and the search starts at the leftmost position
    first. *)

Module RegExp.

Inductive charclass : Type :=
  | Digit                      (* \d *)
  | AnyOf (cs : string).       (* [...] *)

Inductive regex : Type :=
  | Lit (s : string)
  | Cls (c : charclass)
  | Plus (c : charclass)
  | Seq (r1 r2 : regex)
  | Alt (r1 r2 : regex)
  | Group (r : regex).

Definition isDigit (a : ascii) : bool :=
  Nat.leb 48 (nat_of_ascii a) && Nat.leb (nat_of_ascii a) 57.

Fixpoint charIn (a : ascii) (cs : string) : bool :=
  match cs with
  | EmptyString => false
  | String b cs' => Ascii.eqb a b || charIn a cs'
  end.

Definition inClass (c : charclass) (a : ascii) : bool :=
  match c with
  | Digit => isDigit a
  | AnyOf cs => charIn a cs
  end.

Section Matcher.
Context {A : Type}.

(** [c*] then [k]: take as many characters as possible, give one back at
    a time while [k] fails. *)
Fixpoint star (c : charclass) (s : string) (k : string -> option A)
  : option A :=
  match s with
  | EmptyString => k s
  | String a s' =>
      if inClass c a
      then match star c s' k with
           | Some r => Some r
           | None => k s
           end
      else k s
  end.

Definition plus (c : charclass) (s : string) (k : string -> option A)
  : option A :=
  match s with
  | EmptyString => None
  | String a s' => if inClass c a then star c s' k else None
  end.

(** [matchHere r s cap k]: match [r] at the start of [s]; [cap] is the
    text of group 1 so far; [k] continues with the rest of the input. *)
Fixpoint matchHere (r : regex) (s : string) (cap : option string)
         (k : string -> option string -> option A) : option A :=
  match r with
  | Lit l => if startsWith s l then k (sliceFrom (String.length l) s) cap
             else None
  | Cls c =>
      match s with
      | EmptyString => None
      | String a s' => if inClass c a then k s' cap else None
      end
  | Plus c => plus c s (fun s' => k s' cap)
  | Seq r1 r2 =>
      matchHere r1 s cap (fun s' cap' => matchHere r2 s' cap' k)
  | Alt r1 r2 =>
      match matchHere r1 s cap k with
      | Some x => Some x
      | None => matchHere r2 s cap k
      end
  | Group r1 =>
      matchHere r1 s cap
        (fun s' _ =>
           k s' (Some (sliceTo (String.length s - String.length s') s)))
  end.
End Matcher.

(** A match anchored at the start of [s]; the result is group 1 (the
    empty string stands for a group that took no part, which no pattern
    of the source allows). *)
Definition matchAt (r : regex) (s : string) : option string :=
  matchHere r s None
    (fun _ cap => Some (match cap with Some g => g | None => EmptyString end)).

(** [s.match(r)] for a pattern without the [g] flag, reduced to what the
    source reads from it: [None] is [null], [Some g] is a match whose
    element 1 is [g]. *)
Fixpoint jsMatch (s : string) (r : regex) : option string :=
  match matchAt r s with
  | Some g => Some g
  | None =>
      match s with
      | EmptyString => None
      | String _ s' => jsMatch s' r
      end
  end.

(** [\d+\.\d+] *)
Definition majorMinor : regex := Seq (Plus Digit) (Seq (Lit ".") (Plus Digit)).

End RegExp.

Import RegExp.

(** ** User-agent helper methods *)

Definition getBrowserName (ua : string) : string :=
  if includes ua "Firefox" then "Firefox"
  else if includes ua "Chrome" && negb (includes ua "Chromium") then "Chrome"
  else if includes ua "Chromium" then "Chromium"
  else if includes ua "Safari" && negb (includes ua "Chrome") then "Safari"
  else if includes ua "Edge" then "Edge"
  else if includes ua "Opera" || includes ua "OPR" then "Opera"
  else if includes ua "Trident" then "Internet Explorer"
  else "Unknown".

(** The patterns of [getBrowserVersion]. *)
Definition reChrome : regex := Seq (Lit "Chrome/") (Group majorMinor).
Definition reFirefox : regex := Seq (Lit "Firefox/") (Group majorMinor).
Definition reVersion : regex := Seq (Lit "Version/") (Group majorMinor).
Definition reEdge : regex := Seq (Lit "Edge/") (Group majorMinor).
Definition reOpera : regex :=
  Seq (Alt (Lit "Opera") (Lit "OPR")) (Seq (Lit "/") (Group majorMinor)).

Definition getBrowserVersion (ua : string) : string :=
  let browserName := getBrowserName ua in
  let finish (m : option string) :=
    match m with Some g => g | None => "Unknown" end in
  if String.eqb browserName "Chrome" then finish (jsMatch ua reChrome)
  else if String.eqb browserName "Firefox" then finish (jsMatch ua reFirefox)
  else if String.eqb browserName "Safari" then finish (jsMatch ua reVersion)
  else if String.eqb browserName "Edge" then finish (jsMatch ua reEdge)
  else if String.eqb browserName "Opera" then finish (jsMatch ua reOpera)
  else "Unknown".

Definition getEngineName (ua : string) : string :=
  if includes ua "Blink" then "Blink"
  else if includes ua "WebKit" then "WebKit"
  else if includes ua "Gecko" then "Gecko"
  else if includes ua "Trident" then "Trident"
  else if includes ua "EdgeHTML" then "EdgeHTML"
  else "Unknown".

Definition reWebKit : regex := Seq (Lit "WebKit/") (Group majorMinor).
Definition reGecko : regex := Seq (Lit "Gecko/") (Group (Plus Digit)).

Definition getEngineVersion (ua : string) : string :=
  match jsMatch ua reWebKit with
  | Some g => g
  | None =>
      match jsMatch ua reGecko with
      | Some g => g
      | None => "Unknown"
      end
  end.

Definition getOperatingSystem (ua : string) : string :=
  if includes ua "Windows NT 10.0" then "Windows 10/11"
  else if includes ua "Windows NT 6.3" then "Windows 8.1"
  else if includes ua "Windows NT 6.2" then "Windows 8"
  else if includes ua "Windows NT 6.1" then "Windows 7"
  else if includes ua "Windows" then "Windows"
  else if includes ua "Mac OS X" then "macOS"
  else if includes ua "Linux" then "Linux"
  else if includes ua "Android" then "Android"
  else if includes ua "iOS" then "iOS"
  else if includes ua "iPad" then "iPadOS"
  else "Unknown".

Definition reWindowsNT : regex := Seq (Lit "Windows NT ") (Group majorMinor).
Definition reMacOSX : regex :=
  Seq (Lit "Mac OS X ")
      (Group (Seq (Plus Digit)
                (Seq (Cls (AnyOf "._"))
                   (Seq (Plus Digit)
                      (Seq (Cls (AnyOf "._")) (Plus Digit)))))).
Definition reAndroid : regex := Seq (Lit "Android ") (Group majorMinor).
Definition reIOS : regex :=
  Seq (Lit "OS ") (Group (Seq (Plus Digit) (Seq (Lit "_") (Plus Digit)))).

Definition getOSVersion (ua : string) : string :=
  match jsMatch ua reWindowsNT with
  | Some g => g
  | None =>
      match jsMatch ua reMacOSX with
      | Some g => replaceAll "_" "." g
      | None =>
          match jsMatch ua reAndroid with
          | Some g => g
          | None =>
              match jsMatch ua reIOS with
              | Some g => replaceAll "_" "." g
              | None => "Unknown"
              end
          end
      end
  end.

Definition getArchitecture (ua : string) : string :=
  if includes ua "WOW64" || includes ua "Win64" || includes ua "x86_64"
  then "64-bit"
  else if includes ua "ARM" then "ARM"
  else if includes ua "x86" then "32-bit"
  else "Unknown".

(** ** JavaScript values

    What [response.json()] can produce, plus [undefined] for a property
    that is not there.  Numbers are IEEE doubles; objects are finite maps
    from property names to values. *)

Module JS.

Inductive JSValue : Type :=
  | JUndefined
  | JNull
  | JBool (b : bool)
  | JNum (f : spec_float)
  | JStr (s : string)
  | JArr (l : list JSValue)
  | JObj (m : gmap string JSValue).

(** ToBoolean: what [if (v)] and [v || w] test. *)
Definition toBoolean (v : JSValue) : bool :=
  match v with
  | JUndefined | JNull => false
  | JBool b => b
  | JNum (S754_zero _) | JNum S754_nan => false
  | JNum _ => true
  | JStr s => negb (String.eqb s EmptyString)
  | JArr _ | JObj _ => true
  end.

(** [null] and [undefined]: reading a property of these throws. *)
Definition nullish (v : JSValue) : bool :=
  match v with
  | JUndefined | JNull => true
  | _ => false
  end.

(** [v.key] on a value that is not nullish, for a [key] that no built-in
    prototype defines (all the names the source reads are of that kind):
    the own property of an object, [undefined] otherwise. *)
Definition member (v : JSValue) (key : string) : JSValue :=
  match v with
  | JObj m => default JUndefined (m !! key)
  | _ => JUndefined
  end.

(** [key] is an own property of [v]. *)
Definition hasKey (v : JSValue) (key : string) : bool :=
  match v with
  | JObj m => match m !! key with Some _ => true | None => false end
  | _ => false
  end.

(** A thrown error, reduced to its [message]. *)
Record Exn : Type := MkExn { message : string }.

Inductive Completion (A : Type) : Type :=
  | Normal (a : A)
  | Throw (e : Exn).
Arguments Normal {A} a.
Arguments Throw {A} e.

End JS.

Import JS.

(** ** The gatherer's state *)

Record BrowserInfo : Type := MkBrowserInfo {
  userAgent : string;
  browserName : string;
  browserVersion : string;
  engineName : string;
  engineVersion : string
}.

Record SystemInfo : Type := MkSystemInfo {
  operatingSystem : string;
  osVersion : string;
  architecture : string
}.

(** [this.data].  Of [browser] and [system] the fields computed from the
    user agent are kept; the others are plain reads of [navigator]. *)
Record Data : Type := MkData {
  browser : option BrowserInfo;
  system : option SystemInfo;
  network : option (gmap string JSValue)
}.

(** [this.data = {}] of the constructor. *)
Definition emptyData : Data :=
  {| browser := None; system := None; network := None |}.

Definition gatherBrowserInfo (ua : string) (d : Data) : Data :=
  {| browser := Some {| userAgent := ua;
                        browserName := getBrowserName ua;
                        browserVersion := getBrowserVersion ua;
                        engineName := getEngineName ua;
                        engineVersion := getEngineVersion ua |};
     system := system d;
     network := network d |}.

Definition gatherSystemInfo (ua : string) (d : Data) : Data :=
  {| browser := browser d;
     system := Some {| operatingSystem := getOperatingSystem ua;
                       osVersion := getOSVersion ua;
                       architecture := getArchitecture ua |};
     network := network d |}.

(** ** The network and the lookup loop *)

Inductive RejectReason : Type :=
  | ConnectionFailed
  | TimedOut
  | Blocked.

(** What [response.json()] settles to. *)
Inductive BodyResult : Type :=
  | Malformed (msg : string)
  | Parsed (v : JSValue).

(** What [fetch(url)] settles to: a rejection, or a response of any status
    whose body is read afterwards.  The source sets no time limit of its
    own; a request the browser gives up on is a rejection like any other. *)
Inductive FetchOutcome : Type :=
  | Rejected (why : RejectReason) (msg : string)
  | Responded (status : nat) (body : BodyResult).

Record Response : Type := MkResponse { status : nat; body : BodyResult }.

(** The gatherer together with the requests sent so far, oldest first. *)
Record World : Type := MkWorld {
  this_data : Data;
  requests : list string
}.

Definition M (A : Type) : Type := World -> Completion A * World.

Definition ret {A : Type} (a : A) : M A := fun w => (Normal a, w).

Definition throw {A : Type} (e : Exn) : M A := fun w => (Throw e, w).

Definition bind {A B : Type} (m : M A) (k : A -> M B) : M B :=
  fun w =>
    match m w with
    | (Normal a, w') => k a w'
    | (Throw e, w') => (Throw e, w')
    end.

(** [try { m } catch (e) { h e }]: what [m] did before throwing stays. *)
Definition tryCatch {A : Type} (m : M A) (h : Exn -> M A) : M A :=
  fun w =>
    match m w with
    | (Normal a, w') => (Normal a, w')
    | (Throw e, w') => h e w'
    end.

Notation "'let*' x ':=' m 'in' k" := (bind m (fun x => k))
  (at level 10, x name, m at level 100, k at level 200).
Notation "m ';;' k" := (bind m (fun _ => k))
  (at level 100, k at level 200, right associativity).

Definition getNetwork : M (option (gmap string JSValue)) :=
  fun w => (Normal (network (this_data w)), w).

(** [this.data.network = o]. *)
Definition setNetwork (o : gmap string JSValue) : M unit :=
  fun w =>
    (Normal tt,
     {| this_data := {| browser := browser (this_data w);
                        system := system (this_data w);
                        network := Some o |};
        requests := requests w |}).

(** [this.data.network.key = v]. *)
Definition setNetworkField (key : string) (v : JSValue) : M unit :=
  let* o := getNetwork in
  match o with
  | Some obj => setNetwork (<[key := v]> obj)
  | None => throw {| message := "Cannot set properties of undefined" |}
  end.

(** [data.key]. *)
Definition getMember (data : JSValue) (key : string) : M JSValue :=
  if nullish data
  then throw {| message := "Cannot read properties of null" |}
  else ret (member data key).

(** [a || b]. *)
Definition orElse (a b : M JSValue) : M JSValue :=
  let* v := a in
  if toBoolean v then ret v else b.

(** [if (data.key) this.data.network.field = data.key;] *)
Definition copyIfPresent (data : JSValue) (key field : string) : M unit :=
  let* v := getMember data key in
  if toBoolean v
  then let* v' := getMember data key in setNetworkField field v'
  else ret tt.

Inductive LoopSignal : Type := Break | Continue.

Definition ipServices : list string :=
  [ "https://api.ipify.org?format=json";
    "https://httpbin.org/ip";
    "https://api.myip.com";
    "https://ipapi.co/json/" ].

Definition failureMarker : gmap string JSValue :=
  <["publicIP" := JStr "Unable to determine (CORS/Network restrictions)"]>
    (<["error" := JStr "All IP services failed"]> ∅).

Section Resolver.

(** The outside world: the settlement of the [n]-th request (counted
    from 0) when it goes to [url]. *)
Variable net : nat -> string -> FetchOutcome.

(** [await fetch(service)]: one request, whatever comes of it. *)
Definition fetch (service : string) : M Response :=
  fun w =>
    let w' := {| this_data := this_data w;
                 requests := requests w ++ [service] |} in
    match net (length (requests w)) service with
    | Rejected _ msg => (Throw {| message := msg |}, w')
    | Responded st b => (Normal {| status := st; body := b |}, w')
    end.

(** [await response.json()]. *)
Definition json (response : Response) : M JSValue :=
  match body response with
  | Malformed msg => throw {| message := msg |}
  | Parsed v => ret v
  end.

(** The body of the inner [try]. *)
Definition attempt (service : string) : M LoopSignal :=
  let* response := fetch service in
  let* data := json response in
  let* publicIP :=
    orElse (getMember data "ip")
      (orElse (getMember data "origin")
         (orElse (getMember data "query")
            (ret (JStr "Unable to determine")))) in
  setNetwork (<["publicIP" := publicIP]>
                (<["ipService" := JStr service]>
                   (<["headers" := JObj ∅]> ∅)));;
  copyIfPresent data "country" "country";;
  copyIfPresent data "city" "city";;
  copyIfPresent data "region" "region";;
  copyIfPresent data "org" "organization";;
  copyIfPresent data "as" "autonomous_system";;
  ret Break.

(** [for (const service of services) { try { ... break; } catch (e) {
    continue; } }] *)
Fixpoint forOf (services : list string) : M unit :=
  match services with
  | [] => ret tt
  | service :: rest =>
      let* signal := tryCatch (attempt service) (fun _ => ret Continue) in
      match signal with
      | Break => ret tt
      | Continue => forOf rest
      end
  end.

(** [gatherNetworkInfo] with its service list as a parameter. *)
Definition gatherNetworkInfoFrom (services : list string) : M unit :=
  tryCatch
    (forOf services;;
     let* o := getNetwork in
     match o with
     | Some _ => ret tt
     | None => setNetwork failureMarker
     end)
    (fun error =>
       setNetwork (<["publicIP" := JStr "Error retrieving IP"]>
                     (<["error" := JStr (message error)]> ∅))).

Definition gatherNetworkInfo : M unit := gatherNetworkInfoFrom ipServices.

(** [init], without the gatherers that only read the host environment
    and without the rendering. *)
Definition init (ua : string) : M unit :=
  fun w =>
    gatherNetworkInfo
      {| this_data := gatherSystemInfo ua (gatherBrowserInfo ua (this_data w));
         requests := requests w |}.

End Resolver.

(** The record an answer [data] of [service] is turned into, in closed
    form; [attempt_succeeds] below shows that the loop body builds it. *)
Definition enrich (data : JSValue) (key field : string)
           (o : gmap string JSValue) : gmap string JSValue :=
  if toBoolean (member data key) then <[field := member data key]> o else o.

Definition pickIP (data : JSValue) : JSValue :=
  if toBoolean (member data "ip") then member data "ip"
  else if toBoolean (member data "origin") then member data "origin"
  else if toBoolean (member data "query") then member data "query"
  else JStr "Unable to determine".

Definition lookupResult (data : JSValue) (service : string)
  : gmap string JSValue :=
  enrich data "as" "autonomous_system"
    (enrich data "org" "organization"
       (enrich data "region" "region"
          (enrich data "city" "city"
             (enrich data "country" "country"
                (<["publicIP" := pickIP data]>
                   (<["ipService" := JStr service]>
                      (<["headers" := JObj ∅]> ∅))))))).

(** The constructor: [this.data = {}], then [init]. *)
Definition construct (net : nat -> string -> FetchOutcome) (ua : string)
  : M unit :=
  fun w => init net ua {| this_data := emptyData; requests := requests w |}.

(** The optional properties copied through: name in the answer, name in
    the record. *)
Definition enrichmentFields : list (string * string) :=
  [ ("country", "country"); ("city", "city"); ("region", "region");
    ("org", "organization"); ("as", "autonomous_system") ].

(** The ways one entry of the list can fail: the request is rejected
    (connection error, timeout, blocked), the body is not JSON, or the body
    is JSON [null], whose properties cannot be read. *)
Definition entryFails (o : FetchOutcome) : bool :=
  match o with
  | Rejected _ _ => true
  | Responded _ (Malformed _) => true
  | Responded _ (Parsed v) => nullish v
  end.

(** Every entry of [pre] fails when it is asked in its turn, the first of
    them by request number [k]. *)
Fixpoint allFail (net : nat -> string -> FetchOutcome) (k : nat)
         (pre : list string) : bool :=
  match pre with
  | [] => true
  | s :: rest => entryFails (net k s) && allFail net (S k) rest
  end.

(** Two settlements the loop cannot tell apart: both make the entry fail,
    or both carry the same parsed body. *)
Definition sameToLoop (o o' : FetchOutcome) : Prop :=
  (entryFails o = true /\ entryFails o' = true)
  \/ (exists st st' v, o = Responded st (Parsed v)
                       /\ o' = Responded st' (Parsed v)).

Definition logged (w : World) (urls : list string) : World :=
  {| this_data := this_data w; requests := requests w ++ urls |}.

Definition withNetwork (w : World) (o : gmap string JSValue) : World :=
  {| this_data := {| browser := browser (this_data w);
                     system := system (this_data w);
                     network := Some o |};
     requests := requests w |}.

(** ** The tokens the helper methods look for, and sample inputs *)

(** Every literal some test of the helper methods starts from. *)
Definition uaTokens : list string :=
  [ "Firefox"; "Chrome"; "Chromium"; "Safari"; "Edge"; "Opera"; "OPR";
    "Trident"; "Blink"; "WebKit"; "Gecko"; "EdgeHTML"; "Windows";
    "Mac OS X"; "Linux"; "Android"; "iOS"; "iPad"; "OS "; "WOW64";
    "Win64"; "x86_64"; "ARM"; "x86" ].

(** All seven outputs are the [Unknown] sentinel. *)
Definition allUnknown (ua : string) : Prop :=
  getBrowserName ua = "Unknown"
  /\ getBrowserVersion ua = "Unknown"
  /\ getEngineName ua = "Unknown"
  /\ getEngineVersion ua = "Unknown"
  /\ getOperatingSystem ua = "Unknown"
  /\ getOSVersion ua = "Unknown"
  /\ getArchitecture ua = "Unknown".

Definition uaChromePre : string :=
  "Mozilla/5.0 (Windows NT 10.0; Win64; x64) AppleWebKit/537.36 (KHTML, like Gecko) ".
Definition uaChromePost : string := ".0.0 Safari/537.36".
Definition uaChromeWin : string :=
  uaChromePre ++ "Chrome/120.0" ++ uaChromePost.

Definition uaFirefoxLinux : string :=
  "Mozilla/5.0 (X11; Linux x86_64; rv:121.0) Gecko/20100101 Firefox/121.0".

Definition uaFirefoxChrome : string :=
  "Mozilla/5.0 (X11; Linux x86_64; rv:121.0) Gecko/20100101 Firefox/121.0 Chrome/120.0".
Definition uaChromeLongMinor : string :=
  "Mozilla/5.0 (X11; Linux x86_64) AppleWebKit/537.36 (KHTML, like Gecko) Chrome/120.01 Safari/537.36".

Definition uaSafariMacPre : string := "Mozilla/5.0 (Macintosh; Intel ".
Definition uaSafariMacPost : string :=
  ") AppleWebKit/605.1.15 (KHTML, like Gecko) Version/17.1 Safari/605.1.15".
Definition uaSafariMac : string :=
  uaSafariMacPre ++ "Mac OS X 10_15_7" ++ uaSafariMacPost.

Definition uaMacWindowsWord : string :=
  "Mozilla/5.0 (Macintosh; Intel Mac OS X 10_15_7) AppleWebKit/605.1.15 (KHTML, like Gecko) Windows-Compatible/1.0".
Definition uaMacLongPatch : string :=
  "Mozilla/5.0 (Macintosh; Intel Mac OS X 10_15_71) AppleWebKit/605.1.15".

Definition uaAndroidLinux : string :=
  "Mozilla/5.0 (Linux; Android 13.0; Pixel 7) AppleWebKit/537.36 (KHTML, like Gecko) Chrome/120.0.0.0 Mobile Safari/537.36".
Definition uaAndroidPlainPre : string := "Dalvik/2.1.0 (".
Definition uaAndroidPlainPost : string := "; Pixel 7 Build/TQ3A)".
Definition uaAndroidPlain : string :=
  uaAndroidPlainPre ++ "Android 13.0" ++ uaAndroidPlainPost.

Definition uaChromium : string :=
  "Mozilla/5.0 (X11; Linux x86_64) AppleWebKit/537.36 (KHTML, like Gecko) Ubuntu Chromium/120.0.6099.71 Chrome/120.0.6099.71 Safari/537.36".
Definition uaIE11 : string :=
  "Mozilla/5.0 (Windows NT 6.1; WOW64; Trident/7.0; rv:11.0) like Gecko".

(** The world before the lookup: nothing gathered, nothing sent. *)
Definition freshWorld : World := {| this_data := emptyData; requests := [] |}.

(** First service times out, second answers with [origin] only. *)
Definition netOriginSecond (n : nat) (url : string) : FetchOutcome :=
  match n with
  | 0 => Rejected TimedOut "Failed to fetch"
  | 1 => Responded 200 (Parsed (JObj (<["origin" := JStr "203.0.113.5"]> ∅)))
  | _ => Rejected ConnectionFailed "Failed to fetch"
  end.

(** The same, with other kinds of failure. *)
Definition netOriginSecond' (n : nat) (url : string) : FetchOutcome :=
  match n with
  | 0 => Responded 502 (Malformed "Unexpected token < in JSON")
  | 1 => Responded 200 (Parsed (JObj (<["origin" := JStr "203.0.113.5"]> ∅)))
  | _ => Rejected Blocked "Failed to fetch"
  end.

(** First service refuses with 429 and a JSON error body, second answers
    with [origin]. *)
Definition netRateLimitedFirst (n : nat) (url : string) : FetchOutcome :=
  match n with
  | 0 => Responded 429
           (Parsed (JObj (<["error" := JStr "Too Many Requests"]> ∅)))
  | _ => Responded 200 (Parsed (JObj (<["origin" := JStr "203.0.113.5"]> ∅)))
  end.

(** Three services cannot be reached, the last refuses with 429 and a JSON
    error body. *)
Definition netRateLimitedLast (n : nat) (url : string) : FetchOutcome :=
  match n with
  | 0 => Rejected TimedOut "Failed to fetch"
  | 1 => Rejected ConnectionFailed "Failed to fetch"
  | 2 => Rejected Blocked "Failed to fetch"
  | _ => Responded 429
           (Parsed (JObj (<["error" := JStr "Too Many Requests"]> ∅)))
  end.

(** First service answers with a country that has a [toString] of its
    own. *)
Definition unprintableAnswer : JSValue :=
  JObj (<["ip" := JStr "203.0.113.5"]>
          (<["country" := JObj (<["toString" := JStr "x"]> ∅)]> ∅)).

Definition netUnprintableAnswer (n : nat) (url : string) : FetchOutcome :=
  Responded 200 (Parsed unprintableAnswer).

(** First service answers 503 with a JSON error body. *)
Definition netUnavailableFirst (n : nat) (url : string) : FetchOutcome :=
  match n with
  | 0 => Responded 503
           (Parsed (JObj (<["message" := JStr "Service Unavailable"]> ∅)))
  | _ => Responded 200 (Parsed (JObj (<["ip" := JStr "198.51.100.7"]> ∅)))
  end.

(** Nothing answers. *)
Definition netDown (n : nat) (url : string) : FetchOutcome :=
  match n with
  | 0 => Rejected TimedOut "Failed to fetch"
  | 1 => Responded 500 (Malformed "Unexpected end of JSON input")
  | 2 => Rejected Blocked "Failed to fetch"
  | _ => Rejected ConnectionFailed "Failed to fetch"
  end.

(** First service answers with the JSON text [null]. *)
Definition netNullFirst (n : nat) (url : string) : FetchOutcome :=
  match n with
  | 0 => Responded 200 (Parsed JNull)
  | _ => Rejected ConnectionFailed "Failed to fetch"
  end.

(** First service answers with an object that names no address. *)
Definition netNoAddress (n : nat) (url : string) : FetchOutcome :=
  match n with
  | 0 => Responded 200 (Parsed (JObj (<["country" := JStr "IT"]> ∅)))
  | _ => Responded 200 (Parsed (JObj (<["ip" := JStr "198.51.100.7"]> ∅)))
  end.

(** ** What a pattern can match

    The declarative reading of the patterns: [Derives r w c c'] says that
    [r] matches exactly the text [w], taking the text of group 1 from [c]
    to [c']. *)

Fixpoint allIn (p : ascii -> bool) (s : string) : bool :=
  match s with
  | EmptyString => true
  | String a s' => p a && allIn p s'
  end.

Inductive Derives : regex -> string -> option string -> option string -> Prop :=
  | DLit (l : string) (c : option string) : Derives (Lit l) l c c
  | DCls (cl : charclass) (a : ascii) (c : option string) :
      inClass cl a = true -> Derives (Cls cl) (String a EmptyString) c c
  | DPlus (cl : charclass) (ds : string) (c : option string) :
      ds <> EmptyString -> allIn (inClass cl) ds = true ->
      Derives (Plus cl) ds c c
  | DSeq (r1 r2 : regex) (w1 w2 : string) (c0 c1 c2 : option string) :
      Derives r1 w1 c0 c1 -> Derives r2 w2 c1 c2 ->
      Derives (Seq r1 r2) (w1 ++ w2) c0 c2
  | DAltL (r1 r2 : regex) (w : string) (c0 c1 : option string) :
      Derives r1 w c0 c1 -> Derives (Alt r1 r2) w c0 c1
  | DAltR (r1 r2 : regex) (w : string) (c0 c1 : option string) :
      Derives r2 w c0 c1 -> Derives (Alt r1 r2) w c0 c1
  | DGroup (r : regex) (w : string) (c0 c1 : option string) :
      Derives r w c0 c1 -> Derives (Group r) w c0 (Some w).

(** The text of group 1 as [match] reports it. *)
Definition groupText (cap : option string) : string :=
  match cap with Some g => g | None => EmptyString end.

(** A non-empty run of decimal digits. *)
Definition isNumber (s : string) : Prop :=
  s <> EmptyString /\ allIn isDigit s = true.

(** [major.minor]. *)
Definition isMajorMinor (v : string) : Prop :=
  exists a b, isNumber a /\ isNumber b /\ v = a ++ "." ++ b.

(** [major.minor.patch]. *)
Definition isTriple (v : string) : Prop :=
  exists a b c,
    isNumber a /\ isNumber b /\ isNumber c /\ v = a ++ "." ++ b ++ "." ++ c.

(** Somewhere in [ua] the token [tok] is followed by a [major.minor]. *)
Definition hasVersionAfter (tok ua : string) : Prop :=
  exists a b,
    isNumber a /\ isNumber b /\ includes ua (tok ++ a ++ "." ++ b) = true.

(** Somewhere in [ua] the token [tok] is followed by a digit. *)
Definition hasNumberAfter (tok ua : string) : Prop :=
  exists a, isNumber a /\ includes ua (tok ++ a) = true.

Definition digitOrDot (c : ascii) : bool := isDigit c || Ascii.eqb c ".".

(** The names whose version pattern is one token and a [major.minor]. *)
Definition simpleVersionTokens : list (string * string) :=
  [ ("Chrome", "Chrome/"); ("Firefox", "Firefox/"); ("Safari", "Version/");
    ("Edge", "Edge/") ].

(** The token each browser name reads its version after. *)
Definition browserVersionTokens : list (string * string) :=
  [ ("Chrome", "Chrome/"); ("Firefox", "Firefox/"); ("Safari", "Version/");
    ("Edge", "Edge/"); ("Opera", "Opera/"); ("Opera", "OPR/") ].

(** ** Rendering *)

(** The double quote and the line break of the markup. *)
Definition dq : string := String (ascii_of_nat 34) EmptyString.
Definition nl : string := String (ascii_of_nat 10) EmptyString.

(** The page, as far as the gatherer writes to it: the [innerHTML] of the
    elements that exist, by id. *)
Definition setInnerHTML (id html : string) (page : gmap string string)
  : Completion unit * gmap string string :=
  match page !! id with
  | Some _ => (Normal tt, <[id := html]> page)
  | None => (Throw {| message := "Cannot set properties of null" |}, page)
  end.

(** [o.key] on one of the gatherer's own records. *)
Definition field (o : gmap string JSValue) (key : string) : JSValue :=
  default JUndefined (o !! key).

(** [v || 'Not available']. *)
Definition orNotAvailable (v : JSValue) : JSValue :=
  if toBoolean v then v else JStr "Not available".

Definition loadingMarkup : string :=
  "<div class=" ++ dq ++ "loading" ++ dq ++ ">Loading...</div>".

(** The values on which ToString throws a TypeError.  An object is
    converted by the first callable of its [toString] and [valueOf] that
    returns a primitive; a parsed object whose own [toString] property
    hides the inherited method has none ([valueOf], inherited or own,
    gives no primitive either).  An array is converted by joining its
    elements, each converted in turn unless it is [null] or [undefined]. *)
Fixpoint toStringThrows (v : JSValue) : bool :=
  match v with
  | JObj m =>
      match m !! "toString" with
      | Some _ => true
      | None => false
      end
  | JArr l =>
      (fix any (l : list JSValue) : bool :=
         match l with
         | [] => false
         | x :: rest => (negb (nullish x) && toStringThrows x) || any rest
         end) l
  | _ => false
  end.

(** Some row of [createInfoItems] has a value whose conversion throws. *)
Definition rowsThrow (items : list (string * JSValue)) : bool :=
  existsb (fun item => toStringThrows (orNotAvailable (snd item))) items.

Definition conversionError : Exn :=
  {| message := "Cannot convert object to primitive value" |}.

Section Rendering.

(** Number-to-text conversion of the language, left open. *)
Variable numberToString : spec_float -> string.

(** ToString, as a template literal applies it: the text it returns on
    the values on which it returns ([toStringThrows] tells the others). *)
Fixpoint toString (v : JSValue) : string :=
  match v with
  | JUndefined => "undefined"
  | JNull => "null"
  | JBool b => if b then "true" else "false"
  | JNum f => numberToString f
  | JStr s => s
  | JArr l =>
      (fix join (l : list JSValue) : string :=
         match l with
         | [] => EmptyString
         | x :: rest =>
             let here := if nullish x then EmptyString else toString x in
             match rest with
             | [] => here
             | _ :: _ => here ++ "," ++ join rest
             end
         end) l
  | JObj _ => "[object Object]"
  end.

(** One item of [createInfoItems]. *)
Definition infoItem (item : string * JSValue) : string :=
  let (label, value) := item in
  "<div class=" ++ dq ++ "info-item" ++ dq ++ ">" ++ nl
  ++ "                <span class=" ++ dq ++ "info-label" ++ dq ++ ">"
  ++ label ++ ":</span>" ++ nl
  ++ "                <span class=" ++ dq ++ "info-value" ++ dq ++ ">"
  ++ toString (orNotAvailable value) ++ "</span>" ++ nl
  ++ "            </div>".

(** [items.map(...).join('')]: the markup, when no row throws
    ([rowsThrow] tells when one does). *)
Fixpoint createInfoItems (items : list (string * JSValue)) : string :=
  match items with
  | [] => EmptyString
  | item :: rest => infoItem item ++ createInfoItems rest
  end.

(** The rows [displayNetworkInfo] builds from [this.data.network]. *)
Definition networkRows (o : gmap string JSValue) : list (string * JSValue) :=
  [ ("Public IP Address", field o "publicIP");
    ("Country", orNotAvailable (field o "country"));
    ("City", orNotAvailable (field o "city"));
    ("Region", orNotAvailable (field o "region"));
    ("Organization", orNotAvailable (field o "organization"));
    ("Autonomous System", orNotAvailable (field o "autonomous_system"));
    ("IP Service Used", orNotAvailable (field o "ipService")) ].

(** The markup is built before it is assigned: a row that throws leaves
    the page as it was. *)
Definition displayNetworkInfo (d : Data) (page : gmap string string)
  : Completion unit * gmap string string :=
  match network d with
  | None => setInnerHTML "networkInfo" loadingMarkup page
  | Some o =>
      if rowsThrow (networkRows o) then (Throw conversionError, page)
      else setInnerHTML "networkInfo" (createInfoItems (networkRows o)) page
  end.

End Rendering.

(** The same world with the status of every response rewritten by [f]. *)
Definition mapStatus (f : nat -> string -> nat -> nat)
           (net : nat -> string -> FetchOutcome) (n : nat) (url : string)
  : FetchOutcome :=
  match net n url with
  | Responded st b => Responded (f n url st) b
  | Rejected why msg => Rejected why msg
  end.

Definition uaEdgeChromium : string :=
  "Mozilla/5.0 (Windows NT 10.0; Win64; x64) AppleWebKit/537.36 (KHTML, like Gecko) Chrome/120.0.0.0 Safari/537.36 Edg/120.0.0.0".
Definition uaIPhone : string :=
  "Mozilla/5.0 (iPhone; CPU iPhone OS 17_2 like Mac OS X) AppleWebKit/605.1.15 (KHTML, like Gecko) Version/17.2 Mobile/15E148 Safari/604.1".

(** First service answers in full, with an empty city and properties the
    gatherer has no use for. *)
Definition richAnswer : JSValue :=
  JObj (<["ip" := JStr "198.51.100.7"]>
          (<["country" := JStr "IT"]>
             (<["city" := JStr EmptyString]>
                (<["org" := JStr "Example Net"]>
                   (<["asn" := JStr "AS64500"]>
                      (<["success" := JBool true]> ∅)))))).

Definition netRichAnswer (n : nat) (url : string) : FetchOutcome :=
  Responded 200 (Parsed richAnswer).

(** An answer whose address is markup. *)
Definition markupPayload : string := "<img src=x onerror=alert(1)>".

Definition netMarkupAnswer (n : nat) (url : string) : FetchOutcome :=
  Responded 200 (Parsed (JObj (<["ip" := JStr markupPayload]> ∅))).

(** A page that has the element the network rows go to. *)
Definition pageWithNetworkInfo : gmap string string :=
  <["networkInfo" := loadingMarkup]> (<["rawData" := EmptyString]> ∅).

(** ** Connection information *)

(** What [gatherConnectionInfo] reads from the host: [navigator.connection],
    whether [window] has [RTCPeerConnection], [location], the time zone and
    the time-zone offset. *)
Record HostEnv : Type := MkHostEnv {
  navConnection : JSValue;
  hasRTCPeerConnection : bool;
  locProtocol : string;
  locHostname : string;
  locPort : string;
  timeZone : JSValue;
  timezoneOffset : spec_float
}.

(** [a || b] on values. *)
Definition orValue (a b : JSValue) : JSValue := if toBoolean a then a else b.

(** [v?.key]. *)
Definition optMember (v : JSValue) (key : string) : JSValue :=
  if nullish v then JUndefined else member v key.

Definition getConnectionType (env : HostEnv) : JSValue :=
  if toBoolean (navConnection env)
  then orValue (member (navConnection env) "effectiveType")
         (orValue (member (navConnection env) "type") (JStr "Unknown"))
  else JStr "Not available".

(** The record [gatherConnectionInfo] stores as [this.data.connection]. *)
Definition gatherConnectionInfo (env : HostEnv) : gmap string JSValue :=
  <["connectionType" := getConnectionType env]>
  (<["effectiveType" :=
       orValue (optMember (navConnection env) "effectiveType") (JStr "Unknown")]>
  (<["downlink" :=
       orValue (optMember (navConnection env) "downlink") (JStr "Unknown")]>
  (<["rtt" := orValue (optMember (navConnection env) "rtt") (JStr "Unknown")]>
  (<["saveData" :=
       orValue (optMember (navConnection env) "saveData") (JBool false)]>
  (<["webRTCSupport" := JBool (hasRTCPeerConnection env)]>
  (<["protocol" := JStr (locProtocol env)]>
  (<["hostname" := JStr (locHostname env)]>
  (<["port" :=
       orValue (JStr (locPort env))
         (if String.eqb (locProtocol env) "https:" then JStr "443"
          else JStr "80")]>
  (<["timezone" := timeZone env]>
  (<["timezoneOffset" := JNum (timezoneOffset env)]> ∅)))))))))).

Section ConnectionRendering.
Variable numberToString : spec_float -> string.

(** [v + ' unit']: the right operand is text, so the sum is text, when
    the conversion of [v] returns. *)
Definition plusText (v : JSValue) (suffix : string) : JSValue :=
  JStr (toString numberToString v ++ suffix).

(** The rows [displayConnectionInfo] builds from [this.data.connection]. *)
Definition connectionRows (c : gmap string JSValue)
  : list (string * JSValue) :=
  [ ("Connection Type", field c "connectionType");
    ("Effective Type", field c "effectiveType");
    ("Downlink Speed", plusText (field c "downlink") " Mbps");
    ("Round Trip Time", plusText (field c "rtt") " ms");
    ("Save Data Mode",
     if toBoolean (field c "saveData") then JStr "Enabled" else JStr "Disabled");
    ("Protocol", field c "protocol");
    ("Hostname", field c "hostname");
    ("Port", field c "port");
    ("Timezone", field c "timezone");
    ("Timezone Offset", plusText (field c "timezoneOffset") " minutes");
    ("WebRTC Support",
     if toBoolean (field c "webRTCSupport") then JStr "Yes" else JStr "No") ].

Definition displayConnectionInfo (c : gmap string JSValue)
           (page : gmap string string)
  : Completion unit * gmap string string :=
  if toStringThrows (field c "downlink") || toStringThrows (field c "rtt")
     || toStringThrows (field c "timezoneOffset")
     || rowsThrow (connectionRows c)
  then (Throw conversionError, page)
  else setInnerHTML "connectionInfo"
         (createInfoItems numberToString (connectionRows c)) page.

End ConnectionRendering.

(** A host without the Network Information API, on a page opened from a
    file. *)
Definition envNoConnection : HostEnv :=
  {| navConnection := JUndefined;
     hasRTCPeerConnection := true;
     locProtocol := "file:";
     locHostname := EmptyString;
     locPort := EmptyString;
     timeZone := JStr "Europe/Rome";
     timezoneOffset := S754_zero false |}.

(** A host on a slow mobile link. *)
Definition envSlowLink : HostEnv :=
  {| navConnection :=
       JObj (<["effectiveType" := JStr "2g"]>
               (<["type" := JStr "cellular"]>
                  (<["saveData" := JBool true]> ∅)));
     hasRTCPeerConnection := false;
     locProtocol := "https:";
     locHostname := "example.org";
     locPort := EmptyString;
     timeZone := JStr "Europe/Rome";
     timezoneOffset := S754_zero false |}.

(** The names of [this.data.network] that [displayNetworkInfo] reads. *)
Definition shownFields : list string :=
  [ "publicIP"; "country"; "city"; "region"; "organization";
    "autonomous_system"; "ipService" ].

(** The names a record made from an answer can have. *)
Definition recordFields : list string :=
  [ "publicIP"; "ipService"; "headers"; "country"; "city"; "region";
    "organization"; "autonomous_system" ].

(** ** Facts about the string primitives *)

Section StringFacts.

Lemma startsWith_nil (s : string) : startsWith s EmptyString = true.
Proof. destruct s; reflexivity. Qed.

Lemma startsWith_app (p s : string) : startsWith (p ++ s) p = true.
Proof.
  induction p as [|a p IH]; simpl.
  - apply startsWith_nil.
  - rewrite Ascii.eqb_refl. exact IH.
Qed.

Lemma includes_cons (a : ascii) (s sub : string) :
  includes (String a s) sub = startsWith (String a s) sub || includes s sub.
Proof. reflexivity. Qed.

Lemma includes_startsWith (s sub : string) :
  startsWith s sub = true -> includes s sub = true.
Proof. intros H. destruct s; simpl in *; rewrite H; reflexivity. Qed.

Lemma includes_false_startsWith (s sub : string) :
  includes s sub = false -> startsWith s sub = false.
Proof.
  intros H. destruct (startsWith s sub) eqn:E; [|reflexivity].
  apply includes_startsWith in E. congruence.
Qed.

Lemma includes_app_r (pre s sub : string) :
  includes s sub = true -> includes (pre ++ s) sub = true.
Proof.
  intros H. induction pre as [|a pre IH]; simpl; [exact H|].
  rewrite IH. apply orb_true_r.
Qed.

(** A token sits inside any string built around it. *)
Lemma includes_token (pre tok post : string) :
  includes (pre ++ tok ++ post) tok = true.
Proof. apply includes_app_r, includes_startsWith, startsWith_app. Qed.

Lemma startsWith_app_l (s a b : string) :
  startsWith s (a ++ b) = true -> startsWith s a = true.
Proof.
  revert s. induction a as [|c a IH]; intros s H; simpl in *.
  - apply startsWith_nil.
  - destruct s as [|d s]; [discriminate|].
    simpl in *. apply andb_true_iff in H as [-> H]. simpl. eauto.
Qed.

(** Whoever contains [a ++ b] contains [a]. *)
Lemma includes_app_l (s a b : string) :
  includes s (a ++ b) = true -> includes s a = true.
Proof.
  induction s as [|c s IH]; intros H.
  - simpl in H. rewrite orb_false_r in H.
    apply includes_startsWith. eapply startsWith_app_l, H.
  - rewrite includes_cons in *. apply orb_true_iff in H as [H|H].
    + apply startsWith_app_l in H. rewrite H. reflexivity.
    + rewrite (IH H). apply orb_true_r.
Qed.

Lemma includes_longer_false (s a b : string) :
  includes s a = false -> includes s (a ++ b) = false.
Proof.
  intros H. destruct (includes s (a ++ b)) eqn:E; [|reflexivity].
  apply includes_app_l in E. congruence.
Qed.

(** An occurrence of [L] at the start of [p ++ u] lies inside [p], or
    runs over the end of [p] into [u]. *)
Lemma startsWith_app_inv (p u L : string) :
  startsWith (p ++ u) L = true ->
  startsWith p L = true
  \/ (String.length p < String.length L
      /\ startsWith u (sliceFrom (String.length p) L) = true).
Proof.
  revert L. induction p as [|a p IH]; intros L H.
  - destruct L as [|b L]; [left; reflexivity|].
    right. split; [simpl; lia | exact H].
  - destruct L as [|b L]; [left; reflexivity|].
    simpl in H. apply andb_true_iff in H as [Hab H].
    destruct (IH L H) as [Hp | [Hlen Hu]].
    + left. simpl. rewrite Hab, Hp. reflexivity.
    + right. split; [simpl; lia | exact Hu].
Qed.

Lemma startsWith_shorter (u L x : string) :
  startsWith u L = true -> startsWith u x = true ->
  String.length x <= String.length L -> startsWith L x = true.
Proof.
  revert u L. induction x as [|c x IH]; intros u L HL Hx Hlen.
  - apply startsWith_nil.
  - destruct L as [|d L]; [simpl in Hlen; lia|].
    destruct u as [|e u]; [discriminate|].
    simpl in *. apply andb_true_iff in HL as [Hde HL].
    apply andb_true_iff in Hx as [Hce Hx].
    apply Ascii.eqb_eq in Hde, Hce. subst.
    rewrite Ascii.eqb_refl. simpl. eapply IH; eauto. lia.
Qed.

Lemma length_sliceFrom (n : nat) (s : string) :
  String.length (sliceFrom n s) = String.length s - n.
Proof.
  revert s. induction n as [|n IH]; intros [|a s]; simpl; auto.
Qed.

Lemma startsWith_before_token (p u L : string) :
  unbordered L = true -> p <> EmptyString ->
  startsWith p L = false -> startsWith u L = true ->
  startsWith (p ++ u) L = false.
Proof.
  intros HL Hp HpL HuL.
  destruct (startsWith (p ++ u) L) eqn:E; [|reflexivity].
  apply startsWith_app_inv in E as [E | [Hlen E]]; [congruence|].
  assert (Hk : In (String.length p) (seq 1 (String.length L - 1))).
  { apply in_seq. destruct p; [congruence | simpl in *; lia]. }
  unfold unbordered in HL. rewrite forallb_forall in HL.
  specialize (HL _ Hk). apply negb_true_iff in HL.
  rewrite (startsWith_shorter u L _ HuL E) in HL; [discriminate|].
  rewrite length_sliceFrom. lia.
Qed.

End StringFacts.

(** ** Facts about the search *)

Section SearchFacts.

Lemma matchAt_lit_fail (L : string) (r : regex) (s : string) :
  startsWith s L = false -> matchAt (Seq (Lit L) r) s = None.
Proof. intros H. unfold matchAt. simpl. rewrite H. reflexivity. Qed.

(** A pattern that opens with the literal [L] finds nothing in a string
    without [L]. *)
Lemma jsMatch_lit_absent (L : string) (r : regex) (s : string) :
  includes s L = false -> jsMatch s (Seq (Lit L) r) = None.
Proof.
  induction s as [|a s IH]; intros H.
  - simpl. rewrite matchAt_lit_fail; [reflexivity|].
    apply includes_false_startsWith, H.
  - rewrite includes_cons in H. apply orb_false_iff in H as [H1 H2].
    cbn [jsMatch]. rewrite matchAt_lit_fail by exact H1. auto.
Qed.

Lemma jsMatch_here (s : string) (r : regex) (g : string) :
  matchAt r s = Some g -> jsMatch s r = Some g.
Proof. intros H. destruct s; simpl; rewrite H; reflexivity. Qed.

(** The search passes over a prefix free of [L] and reports the match at
    the first occurrence of [L]. *)
Lemma jsMatch_first (L : string) (r : regex) (pre s g : string) :
  unbordered L = true ->
  includes pre L = false -> startsWith s L = true ->
  matchAt (Seq (Lit L) r) s = Some g ->
  jsMatch (pre ++ s) (Seq (Lit L) r) = Some g.
Proof.
  intros HL Hpre Hs Hm. induction pre as [|a pre IH].
  - apply jsMatch_here, Hm.
  - rewrite includes_cons in Hpre. apply orb_false_iff in Hpre as [H1 H2].
    change (String a pre ++ s) with (String a (pre ++ s)).
    cbn [jsMatch]. rewrite matchAt_lit_fail; [auto|].
    apply (startsWith_before_token (String a pre) s L); auto; discriminate.
Qed.

Lemma star_stop {A : Type} (c : charclass) (s : string)
      (k : string -> option A) :
  headIs (inClass c) s = false -> star c s k = k s.
Proof. destruct s as [|a s]; simpl; [reflexivity|]. intros ->. reflexivity. Qed.

End SearchFacts.

(** Run the pattern on a string whose head is spelled out and whose tail
    [post] does not start with a digit; [n] is the length of group 1. *)
Ltac run_anchored H n :=
  unfold matchAt; simpl;
  rewrite star_stop by exact H;
  match goal with
  | |- context [sliceTo (?a - ?b) _] =>
      replace (a - b) with n by (simpl; lia)
  end;
  reflexivity.

Section AnchoredMatches.
Variable post : string.
Hypothesis Hpost : headIs isDigit post = false.

Lemma matchAt_chrome_120 :
  matchAt reChrome ("Chrome/120.0" ++ post) = Some "120.0".
Proof. run_anchored Hpost 5. Qed.

Lemma matchAt_macosx_10_15_7 :
  matchAt reMacOSX ("Mac OS X 10_15_7" ++ post) = Some "10_15_7".
Proof. run_anchored Hpost 7. Qed.

Lemma matchAt_android_13_0 :
  matchAt reAndroid ("Android 13.0" ++ post) = Some "13.0".
Proof. run_anchored Hpost 4. Qed.
End AnchoredMatches.

(** ** Facts about the lookup loop *)

Section LoopFacts.
Local Open Scope list_scope.
Variable net : nat -> string -> FetchOutcome.

Lemma entry_cases (o : FetchOutcome) :
  entryFails o = true
  \/ exists st data, o = Responded st (Parsed data) /\ nullish data = false.
Proof.
  destruct o as [why msg | st [msg | v]]; simpl; auto.
  destruct (nullish v) eqn:E; [auto | right; eauto].
Qed.

(** A failing entry costs one request and throws inside the [try]. *)
Lemma attempt_fails (service : string) (w : World) :
  entryFails (net (length (requests w)) service) = true ->
  exists e, attempt net service w = (Throw e, logged w [service]).
Proof.
  intros H. unfold attempt, bind, fetch.
  destruct (net (length (requests w)) service) as [why msg | st [msg | v]];
    simpl in *; eauto.
  unfold getMember, orElse, bind, throw. rewrite H. simpl. eauto.
Qed.

(** An answer that parses to something other than [null] is normalized
    and ends the loop, whatever its status. *)
Lemma attempt_succeeds (service : string) (w : World)
      (st : nat) (data : JSValue) :
  net (length (requests w)) service = Responded st (Parsed data) ->
  nullish data = false ->
  attempt net service w
  = (Normal Break, withNetwork (logged w [service]) (lookupResult data service)).
Proof.
  intros H Hn.
  unfold attempt, bind, fetch, copyIfPresent, setNetworkField, getMember,
    orElse, bind, lookupResult, enrich, pickIP, withNetwork, logged.
  rewrite H. simpl. rewrite Hn. unfold ret.
  repeat match goal with
         | |- context [toBoolean ?v] => destruct (toBoolean v)
         end; reflexivity.
Qed.

Lemma forOf_cons_fail (service : string) (rest : list string) (w : World) :
  entryFails (net (length (requests w)) service) = true ->
  forOf net (service :: rest) w = forOf net rest (logged w [service]).
Proof.
  intros H. destruct (attempt_fails service w H) as [e He].
  cbn [forOf]. unfold bind, tryCatch. rewrite He. reflexivity.
Qed.

Lemma forOf_cons_success (service : string) (rest : list string) (w : World)
      (st : nat) (data : JSValue) :
  net (length (requests w)) service = Responded st (Parsed data) ->
  nullish data = false ->
  forOf net (service :: rest) w
  = (Normal tt, withNetwork (logged w [service]) (lookupResult data service)).
Proof.
  intros H Hn. cbn [forOf]. unfold bind, tryCatch.
  rewrite (attempt_succeeds service w st data H Hn). reflexivity.
Qed.

Lemma allFail_cons (k : nat) (a : string) (pre : list string) :
  allFail net k (a :: pre) = true ->
  entryFails (net k a) = true /\ allFail net (S k) pre = true.
Proof. simpl. apply andb_true_iff. Qed.

Lemma logged_logged (w : World) (a b : list string) :
  logged (logged w a) b = logged w (a ++ b).
Proof. unfold logged. simpl. rewrite <- app_assoc. reflexivity. Qed.

Lemma forOf_skip (pre rest : list string) (w : World) :
  allFail net (length (requests w)) pre = true ->
  forOf net (pre ++ rest) w = forOf net rest (logged w pre).
Proof.
  revert w. induction pre as [|a pre IH]; intros w H.
  - unfold logged. rewrite app_nil_r. destruct w; reflexivity.
  - apply allFail_cons in H as [Ha H].
    change ((a :: pre) ++ rest)%list with (a :: (pre ++ rest))%list.
    rewrite forOf_cons_fail by exact Ha.
    rewrite IH.
    + rewrite logged_logged. reflexivity.
    + unfold logged. simpl. rewrite length_app. simpl.
      rewrite Nat.add_1_r. exact H.
Qed.

(** The loop never throws, and the requests it sends are a prefix of the
    list, in order. *)
Lemma forOf_normal (services : list string) (w : World) :
  exists w' n,
    forOf net services w = (Normal tt, w')
    /\ requests w' = requests w ++ firstn n services.
Proof.
  revert w. induction services as [|a services IH]; intros w.
  - exists w, 0. simpl. rewrite app_nil_r. split; reflexivity.
  - destruct (entry_cases (net (length (requests w)) a))
      as [Hf | (st & data & Ho & Hn)].
    + rewrite forOf_cons_fail by exact Hf.
      destruct (IH (logged w [a])) as (w' & n & Hrun & Hreq).
      exists w', (S n). split; [exact Hrun|].
      rewrite Hreq. simpl. rewrite <- app_assoc. reflexivity.
    + rewrite (forOf_cons_success a services w st data Ho Hn).
      eexists _, 1. split; [reflexivity|]. reflexivity.
Qed.

(** When the loop found an answer. *)
Lemma gather_success (pre post : list string) (service : string)
      (w : World) (st : nat) (data : JSValue) :
  allFail net (length (requests w)) pre = true ->
  net (length (requests w) + length pre) service
  = Responded st (Parsed data) ->
  nullish data = false ->
  gatherNetworkInfoFrom net (pre ++ service :: post) w
  = (Normal tt,
     withNetwork (logged w (pre ++ [service])) (lookupResult data service)).
Proof.
  intros Hpre Ho Hn. unfold gatherNetworkInfoFrom, tryCatch, bind.
  rewrite forOf_skip by exact Hpre.
  rewrite (forOf_cons_success service post (logged w pre) st data).
  - rewrite logged_logged. reflexivity.
  - unfold logged. simpl. rewrite length_app. exact Ho.
  - exact Hn.
Qed.

(** When every entry failed. *)
Lemma gather_exhausted (services : list string) (w : World) :
  network (this_data w) = None ->
  allFail net (length (requests w)) services = true ->
  gatherNetworkInfoFrom net services w
  = (Normal tt, withNetwork (logged w services) failureMarker).
Proof.
  intros Hnone Hall. unfold gatherNetworkInfoFrom, tryCatch, bind.
  rewrite <- (app_nil_r services) at 1.
  rewrite forOf_skip by exact Hall.
  simpl. unfold getNetwork, logged. simpl. rewrite Hnone. reflexivity.
Qed.

Lemma gather_normal (services : list string) (w : World) :
  exists w' n,
    gatherNetworkInfoFrom net services w = (Normal tt, w')
    /\ requests w' = requests w ++ firstn n services.
Proof.
  destruct (forOf_normal services w) as (w1 & n & Hrun & Hreq).
  unfold gatherNetworkInfoFrom, tryCatch, bind. rewrite Hrun.
  unfold getNetwork. destruct (network (this_data w1)) eqn:E.
  - exists w1, n. split; [reflexivity | exact Hreq].
  - exists (withNetwork w1 failureMarker), n. split; [reflexivity | exact Hreq].
Qed.

(** The loop leaves the classified fields alone. *)
Lemma gather_keeps_classification (services : list string) (w : World) :
  browser (this_data (snd (gatherNetworkInfoFrom net services w)))
  = browser (this_data w)
  /\ system (this_data (snd (gatherNetworkInfoFrom net services w)))
     = system (this_data w).
Proof.
  assert (Hloop : forall l v,
             browser (this_data (snd (forOf net l v))) = browser (this_data v)
             /\ system (this_data (snd (forOf net l v))) = system (this_data v)).
  { induction l as [|a l IH]; intros v; [split; reflexivity|].
    destruct (entry_cases (net (length (requests v)) a))
      as [Hf | (st & data & Ho & Hn)].
    - rewrite forOf_cons_fail by exact Hf. apply (IH (logged v [a])).
    - rewrite (forOf_cons_success a l v st data Ho Hn). split; reflexivity. }
  destruct (forOf_normal services w) as (w1 & n & Hrun & _).
  specialize (Hloop services w). rewrite Hrun in Hloop. simpl in Hloop.
  unfold gatherNetworkInfoFrom, tryCatch, bind. rewrite Hrun.
  unfold getNetwork. destruct (network (this_data w1)); exact Hloop.
Qed.

Lemma sameToLoop_refl (o : FetchOutcome) : sameToLoop o o.
Proof.
  destruct (entry_cases o) as [Hf | (st & data & -> & _)].
  - left. split; exact Hf.
  - right. eauto.
Qed.

End LoopFacts.

Section LoopBlindness.
Local Open Scope list_scope.
Variables net net' : nat -> string -> FetchOutcome.
Hypothesis Hsame : forall n url, sameToLoop (net n url) (net' n url).

(** The loop sees neither the status of a response nor the kind of a
    failure. *)
Lemma forOf_blind (services : list string) (w : World) :
  forOf net services w = forOf net' services w.
Proof.
  revert w. induction services as [|a services IH]; intros w; [reflexivity|].
  destruct (Hsame (length (requests w)) a)
    as [[Hf Hf'] | (st & st' & v & Ho & Ho')].
  - rewrite !forOf_cons_fail by assumption. apply IH.
  - destruct (nullish v) eqn:Hn.
    + rewrite !forOf_cons_fail; [apply IH | |].
      * rewrite Ho'. exact Hn.
      * rewrite Ho. exact Hn.
    + rewrite (forOf_cons_success net a services w st v Ho Hn).
      rewrite (forOf_cons_success net' a services w st' v Ho' Hn).
      reflexivity.
Qed.

Lemma gather_blind (services : list string) (w : World) :
  gatherNetworkInfoFrom net services w = gatherNetworkInfoFrom net' services w.
Proof.
  unfold gatherNetworkInfoFrom, tryCatch, bind. rewrite forOf_blind.
  reflexivity.
Qed.

End LoopBlindness.

(** ** Facts about the normalized record *)

Section RecordFacts.
Variables (data : JSValue) (service : string).

Ltac open_record :=
  unfold lookupResult, enrich;
  repeat match goal with
         | |- context [toBoolean ?v] => destruct (toBoolean v) eqn:?
         end;
  simplify_map_eq; try reflexivity.

Lemma lookupResult_publicIP :
  lookupResult data service !! "publicIP" = Some (pickIP data).
Proof. open_record. Qed.

Lemma lookupResult_ipService :
  lookupResult data service !! "ipService" = Some (JStr service).
Proof. open_record. Qed.

Lemma lookupResult_error : lookupResult data service !! "error" = None.
Proof. open_record. Qed.

Lemma lookupResult_not_marker : lookupResult data service <> failureMarker.
Proof.
  intros E. pose proof lookupResult_error as H. rewrite E in H.
  vm_compute in H. discriminate.
Qed.

Lemma lookupResult_enrichment (key field : string) :
  In (key, field) enrichmentFields ->
  lookupResult data service !! field
  = if toBoolean (member data key) then Some (member data key) else None.
Proof.
  intros H. simpl in H.
  repeat match type of H with
         | _ \/ _ => destruct H as [H | H]
         | (_, _) = (_, _) => injection H as <- <-
         end; try contradiction; open_record.
Qed.

Lemma truthy_member (key : string) :
  toBoolean (member data key) = true -> hasKey data key = true.
Proof.
  unfold member, hasKey. destruct data; try discriminate.
  destruct (_ !! key); [reflexivity | discriminate].
Qed.

Lemma absent_member (key : string) :
  hasKey data key = false -> member data key = JUndefined.
Proof.
  unfold member, hasKey. destruct data; try reflexivity.
  destruct (_ !! key); [discriminate | reflexivity].
Qed.

End RecordFacts.

(** ** More on the lookup loop *)

Section LoopOutcome.
Local Open Scope list_scope.
Variable net : nat -> string -> FetchOutcome.

(** How the loop ends: with every entry failed and nothing written, or at
    the entry number [n], the entries before it failed, with the record
    made from its answer. *)
Lemma forOf_outcome (services : list string) (w : World) :
  (allFail net (length (requests w)) services = true
   /\ forOf net services w = (Normal tt, logged w services))
  \/ (exists n service st data,
         services !! n = Some service
         /\ allFail net (length (requests w)) (firstn n services) = true
         /\ net (length (requests w) + n) service = Responded st (Parsed data)
         /\ nullish data = false
         /\ forOf net services w
            = (Normal tt,
               withNetwork (logged w (firstn (S n) services))
                 (lookupResult data service))).
Proof.
  revert w. induction services as [|a services IH]; intros w.
  - left. split; [reflexivity|]. unfold logged. rewrite app_nil_r.
    destruct w; reflexivity.
  - destruct (entry_cases (net (length (requests w)) a))
      as [Hf | (st & data & Ho & Hn)].
    + rewrite forOf_cons_fail by exact Hf.
      assert (Hlen : length (requests (logged w [a])) = S (length (requests w))).
      { unfold logged. simpl. rewrite length_app. simpl. lia. }
      destruct (IH (logged w [a]))
        as [[Hall Hrun] | (n & service & st & data & Hn & Hall & Ho & Hnull & Hrun)];
        rewrite Hlen in *.
      * left. split; [simpl; rewrite Hf, Hall; reflexivity|].
        rewrite Hrun, logged_logged. reflexivity.
      * right. exists (S n), service, st, data.
        split; [exact Hn|].
        split; [simpl; rewrite Hf, Hall; reflexivity|].
        split; [rewrite Nat.add_succ_r; exact Ho|].
        split; [exact Hnull|].
        rewrite Hrun, logged_logged. reflexivity.
    + right. exists 0, a, st, data.
      split; [reflexivity|]. split; [reflexivity|].
      split; [rewrite Nat.add_0_r; exact Ho|]. split; [exact Hn|].
      exact (forOf_cons_success net a services w st data Ho Hn).
Qed.

Lemma pickIP_truthy (data : JSValue) : toBoolean (pickIP data) = true.
Proof.
  unfold pickIP.
  destruct (toBoolean (member data "ip")) eqn:E1; [exact E1|].
  destruct (toBoolean (member data "origin")) eqn:E2; [exact E2|].
  destruct (toBoolean (member data "query")) eqn:E3; [exact E3|].
  reflexivity.
Qed.

Lemma lookupResult_headers (data : JSValue) (service : string) :
  lookupResult data service !! "headers" = Some (JObj ∅).
Proof.
  unfold lookupResult, enrich;
    repeat match goal with
           | |- context [toBoolean ?v] => destruct (toBoolean v)
           end; reflexivity.
Qed.

Lemma lookupResult_fields (data : JSValue) (service key : string) :
  is_Some (lookupResult data service !! key) -> In key recordFields.
Proof.
  intros [v Hv].
  destruct (decide (In key recordFields)) as [Hin | Hout]; [exact Hin|].
  exfalso. simpl in Hout.
  assert (Hne : key <> "publicIP" /\ key <> "ipService" /\ key <> "headers"
                /\ key <> "country" /\ key <> "city" /\ key <> "region"
                /\ key <> "organization" /\ key <> "autonomous_system")
    by (repeat split; intros ->; apply Hout; tauto).
  destruct Hne as (? & ? & ? & ? & ? & ? & ? & ?).
  unfold lookupResult, enrich in Hv.
  repeat match type of Hv with
         | context [toBoolean ?v] => destruct (toBoolean v)
         end;
    rewrite ?lookup_insert_ne, lookup_empty in Hv by congruence;
    discriminate.
Qed.

End LoopOutcome.

(** ** The helper methods on user agents seen in the field *)

Example chrome_on_windows :
  (getBrowserName uaChromeWin, getBrowserVersion uaChromeWin,
   getEngineName uaChromeWin, getEngineVersion uaChromeWin,
   getOperatingSystem uaChromeWin, getOSVersion uaChromeWin,
   getArchitecture uaChromeWin)
  = ("Chrome", "120.0", "WebKit", "537.36", "Windows 10/11", "10.0", "64-bit").
Proof. vm_compute. reflexivity. Qed.

Example safari_on_mac :
  (getBrowserName uaSafariMac, getBrowserVersion uaSafariMac,
   getEngineName uaSafariMac, getEngineVersion uaSafariMac,
   getOperatingSystem uaSafariMac, getOSVersion uaSafariMac,
   getArchitecture uaSafariMac)
  = ("Safari", "17.1", "WebKit", "605.1", "macOS", "10.15.7", "Unknown").
Proof. vm_compute. reflexivity. Qed.

Example firefox_on_linux :
  (getBrowserName uaFirefoxLinux, getBrowserVersion uaFirefoxLinux,
   getEngineName uaFirefoxLinux, getEngineVersion uaFirefoxLinux,
   getOperatingSystem uaFirefoxLinux, getOSVersion uaFirefoxLinux,
   getArchitecture uaFirefoxLinux)
  = ("Firefox", "121.0", "Gecko", "20100101", "Linux", "Unknown", "64-bit").
Proof. vm_compute. reflexivity. Qed.

Example ie11_on_windows7 :
  (getBrowserName uaIE11, getBrowserVersion uaIE11,
   getEngineName uaIE11, getEngineVersion uaIE11,
   getOperatingSystem uaIE11, getOSVersion uaIE11, getArchitecture uaIE11)
  = ("Internet Explorer", "Unknown", "Gecko", "Unknown", "Windows 7", "6.1",
     "64-bit").
Proof. vm_compute. reflexivity. Qed.

(** The search goes on after a failed attempt (a first "Chrome/" without
    a version is passed over), and the alternatives of a pattern are tried
    at the leftmost position first. *)
Example search_goes_on :
  jsMatch "Chrome/x Chrome/98.12" reChrome = Some "98.12"
  /\ jsMatch "Mac OS X 10.15" reMacOSX = None
  /\ jsMatch "iPhone OS 17_2 like Mac OS X" reIOS = Some "17_2"
  /\ jsMatch "Opera/9.80 OPR/77.0" reOpera = Some "9.80".
Proof. vm_compute. repeat split. Qed.

(** ** The user-agent classifier *)

Section ClassifierClaims.

Lemma token_absent (ua tok : string) :
  forallb (fun t => negb (includes ua t)) uaTokens = true ->
  In tok uaTokens -> includes ua tok = false.
Proof.
  intros H Hin. rewrite forallb_forall in H.
  apply negb_true_iff, H, Hin.
Qed.

Lemma getBrowserName_chrome (ua : string) :
  includes ua "Chrome" = true -> includes ua "Firefox" = false ->
  includes ua "Chromium" = false -> getBrowserName ua = "Chrome".
Proof. intros H1 H2 H3. unfold getBrowserName. rewrite H1, H2, H3. reflexivity. Qed.

Lemma no_windows_no_nt (ua : string) :
  includes ua "Windows" = false -> jsMatch ua reWindowsNT = None.
Proof.
  intros H. apply jsMatch_lit_absent.
  exact (includes_longer_false ua "Windows" " NT " H).
Qed.

Lemma no_macosx_no_version (ua : string) :
  includes ua "Mac OS X" = false -> jsMatch ua reMacOSX = None.
Proof.
  intros H. apply jsMatch_lit_absent.
  exact (includes_longer_false ua "Mac OS X" " " H).
Qed.

Lemma getOperatingSystem_no_windows (ua : string) :
  includes ua "Windows" = false ->
  getOperatingSystem ua
  = if includes ua "Mac OS X" then "macOS"
    else if includes ua "Linux" then "Linux"
    else if includes ua "Android" then "Android"
    else if includes ua "iOS" then "iOS"
    else if includes ua "iPad" then "iPadOS"
    else "Unknown".
Proof.
  intros H. unfold getOperatingSystem.
  rewrite (includes_longer_false ua "Windows" " NT 10.0" H
            : includes ua "Windows NT 10.0" = false).
  rewrite (includes_longer_false ua "Windows" " NT 6.3" H
            : includes ua "Windows NT 6.3" = false).
  rewrite (includes_longer_false ua "Windows" " NT 6.2" H
            : includes ua "Windows NT 6.2" = false).
  rewrite (includes_longer_false ua "Windows" " NT 6.1" H
            : includes ua "Windows NT 6.1" = false).
  rewrite H. reflexivity.
Qed.

End ClassifierClaims.

(** C4 (as amended).  For every user agent that contains "Chrome" and
    contains neither "Firefox" nor "Chromium", the browser name is Chrome,
    whether or not "Safari", "Edge", "Opera" or "OPR" occur as well: the
    Chrome test comes before theirs.  If moreover the first "Chrome/" of the
    user agent is followed by "120.0" and then by something that is not a
    digit, the browser version is "120.0". *)
Theorem C4_chrome_name_and_version (ua : string) :
  includes ua "Chrome" = true ->
  includes ua "Firefox" = false ->
  includes ua "Chromium" = false ->
  getBrowserName ua = "Chrome"
  /\ (forall pre post : string,
         ua = pre ++ "Chrome/120.0" ++ post ->
         includes pre "Chrome/" = false ->
         headIs isDigit post = false ->
         getBrowserVersion ua = "120.0").
Proof.
  intros Hc Hf Hm.
  pose proof (getBrowserName_chrome ua Hc Hf Hm) as Hname.
  split; [exact Hname|].
  intros pre post -> Hpre Hpost.
  unfold getBrowserVersion. rewrite Hname. simpl.
  unfold reChrome.
  rewrite (jsMatch_first "Chrome/" (Group majorMinor) pre
             ("Chrome/120.0" ++ post) "120.0");
    auto using matchAt_chrome_120.
Qed.

Lemma C4_witness :
  getBrowserName uaChromeWin = "Chrome"
  /\ getBrowserVersion uaChromeWin = "120.0".
Proof.
  destruct (C4_chrome_name_and_version uaChromeWin eq_refl eq_refl eq_refl)
    as [Hname Hversion].
  split; [exact Hname|].
  apply (Hversion uaChromePre uaChromePost); reflexivity.
Defined.

(** C4 as stated fails: a user agent with "Chrome/120.0" and none of
    "Chromium", "Edge", "OPR", "Opera" is named Firefox when "Firefox"
    occurs in it, and its version is not "120.0" when more digits follow. *)
Lemma C4_counterexample :
  (includes uaFirefoxChrome "Chrome/120.0" = true
   /\ includes uaFirefoxChrome "Chromium" = false
   /\ includes uaFirefoxChrome "Edge" = false
   /\ includes uaFirefoxChrome "OPR" = false
   /\ includes uaFirefoxChrome "Opera" = false
   /\ getBrowserName uaFirefoxChrome = "Firefox"
   /\ getBrowserVersion uaFirefoxChrome = "121.0")
  /\ (includes uaChromeLongMinor "Chrome/120.0" = true
      /\ includes uaChromeLongMinor "Chromium" = false
      /\ includes uaChromeLongMinor "Edge" = false
      /\ includes uaChromeLongMinor "OPR" = false
      /\ includes uaChromeLongMinor "Opera" = false
      /\ getBrowserName uaChromeLongMinor = "Chrome"
      /\ getBrowserVersion uaChromeLongMinor = "120.01").
Proof. vm_compute. repeat split. Qed.

(** C5.  On the empty user agent every output is the Unknown sentinel, and
    so it is on every user agent in which none of the tokens the tests
    start from occurs: a test that does not match yields Unknown, nothing
    is raised. *)
Theorem C5_unmatched_is_unknown (ua : string) :
  forallb (fun t => negb (includes ua t)) uaTokens = true ->
  allUnknown EmptyString /\ allUnknown ua.
Proof.
  intros H. split; [vm_compute; repeat split|].
  assert (T : forall tok, In tok uaTokens -> includes ua tok = false)
    by (intros tok; apply token_absent, H).
  assert (Hname : getBrowserName ua = "Unknown").
  { unfold getBrowserName.
    rewrite !T by (simpl; tauto). reflexivity. }
  repeat split.
  - exact Hname.
  - unfold getBrowserVersion. rewrite Hname. reflexivity.
  - unfold getEngineName. rewrite !T by (simpl; tauto). reflexivity.
  - unfold getEngineVersion, reWebKit, reGecko.
    rewrite !jsMatch_lit_absent; [reflexivity| |].
    + apply (includes_longer_false ua "Gecko" "/"), T. simpl; tauto.
    + apply (includes_longer_false ua "WebKit" "/"), T. simpl; tauto.
  - rewrite getOperatingSystem_no_windows by (apply T; simpl; tauto).
    rewrite !T by (simpl; tauto). reflexivity.
  - unfold getOSVersion.
    rewrite no_windows_no_nt by (apply T; simpl; tauto).
    rewrite no_macosx_no_version by (apply T; simpl; tauto).
    unfold reAndroid, reIOS.
    rewrite !jsMatch_lit_absent; [reflexivity| |].
    + apply T. simpl; tauto.
    + apply (includes_longer_false ua "Android" " "), T. simpl; tauto.
  - unfold getArchitecture. rewrite !T by (simpl; tauto). reflexivity.
Qed.

Lemma C5_witness : allUnknown EmptyString /\ allUnknown "curl/8.4.0".
Proof. apply C5_unmatched_is_unknown. vm_compute. reflexivity. Defined.

(** C6 (as amended).  For every user agent without "Windows" in which the
    first "Mac OS X " is followed by "10_15_7" and then by something that
    is not a digit, the operating system is macOS and the OS version is
    "10.15.7", underscores turned into dots. *)
Theorem C6_macos_name_and_version (ua pre post : string) :
  ua = pre ++ "Mac OS X 10_15_7" ++ post ->
  includes ua "Windows" = false ->
  includes pre "Mac OS X " = false ->
  headIs isDigit post = false ->
  getOperatingSystem ua = "macOS" /\ getOSVersion ua = "10.15.7".
Proof.
  intros Hua Hwin Hpre Hpost. split.
  - rewrite getOperatingSystem_no_windows by exact Hwin.
    assert (Hmac : includes ua "Mac OS X" = true).
    { apply (includes_app_l ua "Mac OS X" " 10_15_7").
      rewrite Hua. apply includes_token. }
    rewrite Hmac. reflexivity.
  - unfold getOSVersion. rewrite no_windows_no_nt by exact Hwin.
    rewrite Hua. unfold reMacOSX.
    erewrite jsMatch_first;
      [ | reflexivity | exact Hpre | reflexivity
        | exact (matchAt_macosx_10_15_7 post Hpost) ].
    reflexivity.
Qed.

Lemma C6_witness :
  getOperatingSystem uaSafariMac = "macOS"
  /\ getOSVersion uaSafariMac = "10.15.7".
Proof.
  apply (C6_macos_name_and_version uaSafariMac uaSafariMacPre uaSafariMacPost);
    reflexivity.
Defined.

(** C6 as stated fails: with "Mac OS X 10_15_7" and no "Windows NT", the
    bare word "Windows" makes the operating system Windows, and a further
    digit after the token makes the version longer. *)
Lemma C6_counterexample :
  (includes uaMacWindowsWord "Mac OS X 10_15_7" = true
   /\ includes uaMacWindowsWord "Windows NT" = false
   /\ getOperatingSystem uaMacWindowsWord = "Windows")
  /\ (includes uaMacLongPatch "Mac OS X 10_15_7" = true
      /\ includes uaMacLongPatch "Windows NT" = false
      /\ getOSVersion uaMacLongPatch = "10.15.71").
Proof. vm_compute. repeat split. Qed.

(** C7 (as amended).  For every user agent without "Windows", "Mac OS X"
    and "Linux" in which the first "Android " is followed by "13.0" and
    then by something that is not a digit, the operating system is Android
    and the OS version is "13.0". *)
Theorem C7_android_name_and_version (ua pre post : string) :
  ua = pre ++ "Android 13.0" ++ post ->
  includes ua "Windows" = false ->
  includes ua "Mac OS X" = false ->
  includes ua "Linux" = false ->
  includes pre "Android " = false ->
  headIs isDigit post = false ->
  getOperatingSystem ua = "Android" /\ getOSVersion ua = "13.0".
Proof.
  intros Hua Hwin Hmac Hlinux Hpre Hpost. split.
  - rewrite getOperatingSystem_no_windows by exact Hwin.
    rewrite Hmac, Hlinux.
    assert (Hand : includes ua "Android" = true).
    { apply (includes_app_l ua "Android" " 13.0").
      rewrite Hua. apply includes_token. }
    rewrite Hand. reflexivity.
  - unfold getOSVersion. rewrite no_windows_no_nt by exact Hwin.
    rewrite no_macosx_no_version by exact Hmac.
    rewrite Hua. unfold reAndroid.
    erewrite jsMatch_first;
      [ | reflexivity | exact Hpre | reflexivity
        | exact (matchAt_android_13_0 post Hpost) ].
    reflexivity.
Qed.

Lemma C7_witness :
  getOperatingSystem uaAndroidPlain = "Android"
  /\ getOSVersion uaAndroidPlain = "13.0".
Proof.
  apply (C7_android_name_and_version
           uaAndroidPlain uaAndroidPlainPre uaAndroidPlainPost);
    reflexivity.
Defined.

(** C7 as stated fails: the usual Android user agent also says "Linux",
    which is tested first. *)
Lemma C7_counterexample :
  includes uaAndroidLinux "Android 13.0" = true
  /\ getOperatingSystem uaAndroidLinux = "Linux"
  /\ getOSVersion uaAndroidLinux = "13.0".
Proof. vm_compute. repeat split. Qed.

(** C8.  Classification depends on the user agent alone: whatever the
    gatherer holds when the fields are computed, the same user agent gives
    the same fields, computing them again changes nothing, nothing else of
    the gatherer's data is touched, and after [init] the fields are the same
    whatever the lookup services answered. *)
Theorem C8_classification_is_pure (ua : string) (d1 d2 : Data)
        (net net' : nat -> string -> FetchOutcome) (w w' : World) :
  browser (gatherBrowserInfo ua d1) = browser (gatherBrowserInfo ua d2)
  /\ system (gatherSystemInfo ua d1) = system (gatherSystemInfo ua d2)
  /\ gatherBrowserInfo ua (gatherBrowserInfo ua d1) = gatherBrowserInfo ua d1
  /\ gatherSystemInfo ua (gatherSystemInfo ua d1) = gatherSystemInfo ua d1
  /\ system (gatherBrowserInfo ua d1) = system d1
  /\ network (gatherBrowserInfo ua d1) = network d1
  /\ browser (gatherSystemInfo ua d1) = browser d1
  /\ network (gatherSystemInfo ua d1) = network d1
  /\ browser (this_data (snd (init net ua w)))
     = browser (this_data (snd (init net' ua w')))
  /\ system (this_data (snd (init net ua w)))
     = system (this_data (snd (init net' ua w')))
  /\ browser (this_data (snd (init net ua w)))
     = Some {| userAgent := ua;
               browserName := getBrowserName ua;
               browserVersion := getBrowserVersion ua;
               engineName := getEngineName ua;
               engineVersion := getEngineVersion ua |}
  /\ system (this_data (snd (init net ua w)))
     = Some {| operatingSystem := getOperatingSystem ua;
               osVersion := getOSVersion ua;
               architecture := getArchitecture ua |}.
Proof.
  assert (H : forall n v,
             browser (this_data (snd (init n ua v)))
             = browser (gatherBrowserInfo ua (this_data v))
             /\ system (this_data (snd (init n ua v)))
                = system (gatherSystemInfo ua (this_data v))).
  { intros n v. unfold init, gatherNetworkInfo.
    destruct (gather_keeps_classification n ipServices
                {| this_data := gatherSystemInfo ua
                                  (gatherBrowserInfo ua (this_data v));
                   requests := requests v |}) as [Hb Hs].
    rewrite Hb, Hs. split; reflexivity. }
  destruct (H net w) as [Hb Hs]. destruct (H net' w') as [Hb' Hs'].
  rewrite Hb, Hs, Hb', Hs'. repeat split.
Qed.

(** C10.  Whenever the browser name is Chromium or Internet Explorer the
    browser version is the Unknown sentinel, whatever version text the user
    agent carries. *)
Theorem C10_no_version_for_chromium_and_ie (ua : string) :
  getBrowserName ua = "Chromium" \/ getBrowserName ua = "Internet Explorer" ->
  getBrowserVersion ua = "Unknown".
Proof.
  intros [H | H]; unfold getBrowserVersion; rewrite H; reflexivity.
Qed.

Lemma C10_witness :
  includes uaChromium "Chromium/120.0" = true
  /\ getBrowserVersion uaChromium = "Unknown"
  /\ includes uaIE11 "rv:11.0" = true
  /\ getBrowserVersion uaIE11 = "Unknown".
Proof.
  split; [reflexivity|]. split.
  - apply C10_no_version_for_chromium_and_ie. left. reflexivity.
  - split; [reflexivity|].
    apply C10_no_version_for_chromium_and_ie. right. reflexivity.
Defined.

(** ** The lookup loop *)

(** C1 (as amended).  Whatever the list, the loop stops at the first entry
    whose request is answered, with any status, by a body that parses to
    something other than [null]; the entries before it, each failing by a
    rejected request, a malformed body or a [null] body, were asked once
    each, and the entries after it are not asked.  The record's address is
    the first of [ip], [origin], [query] that is truthy in that answer
    (the text "Unable to determine" when none is), its source is that
    entry's URL, and an optional field is in the record exactly when its
    value in the answer is truthy, hence only if the answer has it, with
    the answer's value. *)
Theorem C1_first_valid_answer_wins
        (net : nat -> string -> FetchOutcome)
        (pre post : list string) (service : string) (w : World)
        (st : nat) (data : JSValue) :
  allFail net (length (requests w)) pre = true ->
  net (length (requests w) + length pre) service = Responded st (Parsed data) ->
  nullish data = false ->
  exists (w' : World) (obj : gmap string JSValue),
    gatherNetworkInfoFrom net (pre ++ service :: post)%list w = (Normal tt, w')
    /\ requests w' = (requests w ++ pre ++ [service])%list
    /\ network (this_data w') = Some obj
    /\ obj !! "publicIP"
       = Some (if toBoolean (member data "ip") then member data "ip"
               else if toBoolean (member data "origin") then member data "origin"
               else if toBoolean (member data "query") then member data "query"
               else JStr "Unable to determine")
    /\ obj !! "ipService" = Some (JStr service)
    /\ obj !! "error" = None
    /\ (forall key field,
           In (key, field) enrichmentFields ->
           obj !! field
           = if toBoolean (member data key) then Some (member data key)
             else None)
    /\ (forall key field v,
           In (key, field) enrichmentFields ->
           obj !! field = Some v ->
           hasKey data key = true /\ member data key = v).
Proof.
  intros Hpre Ho Hn.
  exists (withNetwork (logged w (pre ++ [service])%list) (lookupResult data service)),
         (lookupResult data service).
  split; [exact (gather_success net pre post service w st data Hpre Ho Hn)|].
  split; [reflexivity|]. split; [reflexivity|].
  split; [apply lookupResult_publicIP|].
  split; [apply lookupResult_ipService|].
  split; [apply lookupResult_error|].
  split; [intros key field; apply lookupResult_enrichment|].
  intros key field v Hin Hv.
  rewrite (lookupResult_enrichment data service key field Hin) in Hv.
  destruct (toBoolean (member data key)) eqn:Ht; [|discriminate].
  split; [exact (truthy_member data key Ht) | congruence].
Qed.

(** The scenario of the specification: the first service times out, the
    second answers [{ "origin": "203.0.113.5" }]. *)
Lemma C1_witness :
  exists (w' : World) (obj : gmap string JSValue),
    gatherNetworkInfo netOriginSecond freshWorld = (Normal tt, w')
    /\ requests w'
       = ["https://api.ipify.org?format=json"; "https://httpbin.org/ip"]
    /\ network (this_data w') = Some obj
    /\ obj !! "publicIP" = Some (JStr "203.0.113.5")
    /\ obj !! "ipService" = Some (JStr "https://httpbin.org/ip")
    /\ obj !! "error" = None
    /\ (forall key field,
           In (key, field) enrichmentFields ->
           obj !! field
           = if toBoolean
                  (member (JObj (<["origin" := JStr "203.0.113.5"]> ∅)) key)
             then Some (member (JObj (<["origin" := JStr "203.0.113.5"]> ∅)) key)
             else None)
    /\ (forall key field v,
           In (key, field) enrichmentFields ->
           obj !! field = Some v ->
           hasKey (JObj (<["origin" := JStr "203.0.113.5"]> ∅)) key = true
           /\ member (JObj (<["origin" := JStr "203.0.113.5"]> ∅)) key = v).
Proof.
  exact (C1_first_valid_answer_wins netOriginSecond
           ["https://api.ipify.org?format=json"]
           ["https://api.myip.com"; "https://ipapi.co/json/"]
           "https://httpbin.org/ip" freshWorld 200
           (JObj (<["origin" := JStr "203.0.113.5"]> ∅))
           eq_refl eq_refl eq_refl).
Defined.

(** C1 as stated fails: the first service refuses with status 429 and a
    JSON error body, the second would answer
    [{ "origin": "203.0.113.5" }]; the loop stops at the first, the record
    has the placeholder as address and the first service as source, and
    the second service is never asked. *)
Lemma C1_counterexample :
  netRateLimitedFirst 0 "https://api.ipify.org?format=json"
  = Responded 429 (Parsed (JObj (<["error" := JStr "Too Many Requests"]> ∅)))
  /\ netRateLimitedFirst 1 "https://httpbin.org/ip"
     = Responded 200 (Parsed (JObj (<["origin" := JStr "203.0.113.5"]> ∅)))
  /\ gatherNetworkInfo netRateLimitedFirst freshWorld
     = (Normal tt,
        {| this_data :=
             {| browser := None; system := None;
                network :=
                  Some (<["publicIP" := JStr "Unable to determine"]>
                          (<["ipService" :=
                               JStr "https://api.ipify.org?format=json"]>
                             (<["headers" := JObj ∅]> ∅))) |};
           requests := ["https://api.ipify.org?format=json"] |}).
Proof. split; [reflexivity|]. split; [reflexivity | vm_compute; reflexivity]. Qed.

(** In that scenario the record is exactly address, source and the empty
    [headers]. *)
Lemma scenario_origin_record :
  gatherNetworkInfo netOriginSecond freshWorld
  = (Normal tt,
     {| this_data :=
          {| browser := None; system := None;
             network :=
               Some (<["publicIP" := JStr "203.0.113.5"]>
                       (<["ipService" := JStr "https://httpbin.org/ip"]>
                          (<["headers" := JObj ∅]> ∅))) |};
        requests :=
          ["https://api.ipify.org?format=json"; "https://httpbin.org/ip"] |}).
Proof. vm_compute. reflexivity. Qed.

(** C2 (as amended).  Entries whose request is rejected (connection error,
    timeout, block) or whose body is malformed (not JSON, or JSON [null])
    are asked once each, in order, and the loop goes on with the rest of
    the list as if it had started there.  Of the rest it asks, one request
    per entry, exactly the entries up to and including the first whose
    answer is accepted, and none after it; or all of them when all fail.
    The kind of a failure makes no difference: a world in which failing
    entries fail in another way gives the same result. *)
Theorem C2_failed_entries_are_skipped
        (net net' : nat -> string -> FetchOutcome)
        (pre rest : list string) (w : World) :
  allFail net (length (requests w)) pre = true ->
  (forall n url,
      (entryFails (net n url) = true /\ entryFails (net' n url) = true)
      \/ net n url = net' n url) ->
  exists (w' : World) (n : nat),
    gatherNetworkInfoFrom net (pre ++ rest)%list w = (Normal tt, w')
    /\ gatherNetworkInfoFrom net rest (logged w pre) = (Normal tt, w')
    /\ requests w' = (requests w ++ pre ++ firstn n rest)%list
    /\ ((n = length rest
         /\ allFail net (length (requests w) + length pre) rest = true)
        \/ (exists m service st data,
               n = S m
               /\ rest !! m = Some service
               /\ allFail net (length (requests w) + length pre)
                    (firstn m rest) = true
               /\ net (length (requests w) + length pre + m) service
                  = Responded st (Parsed data)
               /\ nullish data = false))
    /\ gatherNetworkInfoFrom net' (pre ++ rest)%list w = (Normal tt, w').
Proof.
  intros Hpre Hsame.
  assert (Hlen : length (requests (logged w pre))
                 = length (requests w) + length pre).
  { unfold logged. simpl. apply length_app. }
  assert (Hskip : gatherNetworkInfoFrom net (pre ++ rest)%list w
                  = gatherNetworkInfoFrom net rest (logged w pre)).
  { unfold gatherNetworkInfoFrom, tryCatch, bind.
    rewrite forOf_skip by exact Hpre. reflexivity. }
  assert (Hblind : gatherNetworkInfoFrom net' (pre ++ rest)%list w
                   = gatherNetworkInfoFrom net (pre ++ rest)%list w).
  { symmetry. apply gather_blind. intros k url.
    destruct (Hsame k url) as [Hf | He]; [left; exact Hf|].
    rewrite <- He. apply sameToLoop_refl. }
  rewrite Hblind, Hskip.
  destruct (forOf_outcome net rest (logged w pre))
    as [[Hall Hrun] | (m & service & st & data & Hm & Hall & Ho & Hnull & Hrun)];
    rewrite Hlen in *.
  - assert (Hreq : forall v, requests v = requests (logged (logged w pre) rest) ->
                             requests v
                             = (requests w ++ pre ++ firstn (length rest) rest)%list).
    { intros v ->. unfold logged. simpl.
      rewrite firstn_all, <- app_assoc. reflexivity. }
    unfold gatherNetworkInfoFrom, tryCatch, bind. rewrite Hrun.
    unfold getNetwork.
    destruct (network (this_data (logged (logged w pre) rest))) eqn:E.
    + exists (logged (logged w pre) rest), (length rest).
      split; [reflexivity|]. split; [reflexivity|].
      split; [apply Hreq; reflexivity|]. split; [left; auto | reflexivity].
    + exists (withNetwork (logged (logged w pre) rest) failureMarker),
             (length rest).
      split; [reflexivity|]. split; [reflexivity|].
      split; [apply Hreq; reflexivity|]. split; [left; auto | reflexivity].
  - unfold gatherNetworkInfoFrom, tryCatch, bind. rewrite Hrun.
    eexists _, (S m).
    split; [reflexivity|]. split; [reflexivity|].
    split; [unfold logged; simpl; rewrite <- app_assoc; reflexivity|].
    split; [right; exists m, service, st, data; auto | reflexivity].
Qed.

Lemma C2_witness :
  exists (w' : World) (n : nat),
    gatherNetworkInfo netOriginSecond freshWorld = (Normal tt, w')
    /\ gatherNetworkInfoFrom netOriginSecond
         ["https://httpbin.org/ip"; "https://api.myip.com";
          "https://ipapi.co/json/"]
         (logged freshWorld ["https://api.ipify.org?format=json"])
       = (Normal tt, w')
    /\ requests w'
       = "https://api.ipify.org?format=json"
           :: firstn n ["https://httpbin.org/ip"; "https://api.myip.com";
                        "https://ipapi.co/json/"]
    /\ ((n = 3
         /\ allFail netOriginSecond 1
              ["https://httpbin.org/ip"; "https://api.myip.com";
               "https://ipapi.co/json/"] = true)
        \/ (exists m service st data,
               n = S m
               /\ ["https://httpbin.org/ip"; "https://api.myip.com";
                   "https://ipapi.co/json/"] !! m = Some service
               /\ allFail netOriginSecond 1
                    (firstn m ["https://httpbin.org/ip"; "https://api.myip.com";
                               "https://ipapi.co/json/"]) = true
               /\ netOriginSecond (1 + m) service = Responded st (Parsed data)
               /\ nullish data = false))
    /\ gatherNetworkInfo netOriginSecond' freshWorld = (Normal tt, w').
Proof.
  apply (C2_failed_entries_are_skipped netOriginSecond netOriginSecond'
           ["https://api.ipify.org?format=json"]
           ["https://httpbin.org/ip"; "https://api.myip.com";
            "https://ipapi.co/json/"] freshWorld).
  - reflexivity.
  - intros [|[|n]] url.
    + left. split; reflexivity.
    + right. reflexivity.
    + left. split; reflexivity.
Defined.

(** C2 as stated fails: a 503 answer with a JSON body is taken as the
    result; the second service is never asked. *)
Lemma C2_counterexample :
  netUnavailableFirst 0 "https://api.ipify.org?format=json"
  = Responded 503 (Parsed (JObj (<["message" := JStr "Service Unavailable"]> ∅)))
  /\ gatherNetworkInfo netUnavailableFirst freshWorld
     = (Normal tt,
        {| this_data :=
             {| browser := None; system := None;
                network :=
                  Some (<["publicIP" := JStr "Unable to determine"]>
                          (<["ipService" :=
                               JStr "https://api.ipify.org?format=json"]>
                             (<["headers" := JObj ∅]> ∅))) |};
           requests := ["https://api.ipify.org?format=json"] |}).
Proof. split; [reflexivity | vm_compute; reflexivity]. Qed.

(** C3 (as amended).  When every entry fails by a rejected request, a
    malformed body or a [null] body, and no lookup result is held yet (the
    state the constructor leaves), the lookup returns normally, having
    asked every entry once, and the result is the failure marker: a fixed
    notice as [publicIP], the reason as [error], no source.  No record made
    from an answer has an [error], so none equals the marker.  Whatever the
    world, the lookup returns normally; and a gatherer constructed in a
    world where the four services fail in these ways holds the marker. *)
Theorem C3_all_failed_gives_marker
        (net : nat -> string -> FetchOutcome)
        (services : list string) (w : World) :
  network (this_data w) = None ->
  allFail net (length (requests w)) services = true ->
  gatherNetworkInfoFrom net services w
  = (Normal tt, withNetwork (logged w services) failureMarker)
  /\ failureMarker !! "error" = Some (JStr "All IP services failed")
  /\ failureMarker !! "publicIP"
     = Some (JStr "Unable to determine (CORS/Network restrictions)")
  /\ failureMarker !! "ipService" = None
  /\ dom failureMarker = ({["publicIP"; "error"]} : gset string)
  /\ (forall data service,
         lookupResult data service !! "error" = None
         /\ lookupResult data service !! "ipService" = Some (JStr service)
         /\ lookupResult data service <> failureMarker)
  /\ (forall net0 services0 w0,
         exists w', gatherNetworkInfoFrom net0 services0 w0 = (Normal tt, w'))
  /\ (forall net0 ua w0,
         allFail net0 (length (requests w0)) ipServices = true ->
         exists w',
           construct net0 ua w0 = (Normal tt, w')
           /\ network (this_data w') = Some failureMarker
           /\ requests w' = (requests w0 ++ ipServices)%list).
Proof.
  intros Hnone Hall.
  split; [exact (gather_exhausted net services w Hnone Hall)|].
  split; [reflexivity|]. split; [reflexivity|]. split; [reflexivity|].
  split; [unfold failureMarker; rewrite !dom_insert_L, dom_empty_L; set_solver|].
  split.
  { intros data service.
    split; [apply lookupResult_error|].
    split; [apply lookupResult_ipService | apply lookupResult_not_marker]. }
  split.
  { intros net0 services0 w0.
    destruct (gather_normal net0 services0 w0) as (w' & n & Hrun & _).
    exists w'. exact Hrun. }
  intros net0 ua w0 Hall0. unfold construct, init, gatherNetworkInfo.
  eexists. split; [apply gather_exhausted; [reflexivity | exact Hall0]|].
  split; reflexivity.
Qed.

Lemma C3_witness :
  init netDown uaIE11 freshWorld
  = (Normal tt,
     withNetwork
       (logged {| this_data :=
                    gatherSystemInfo uaIE11 (gatherBrowserInfo uaIE11 emptyData);
                  requests := [] |} ipServices)
       failureMarker).
Proof.
  exact (proj1 (C3_all_failed_gives_marker netDown ipServices
                  {| this_data :=
                       gatherSystemInfo uaIE11 (gatherBrowserInfo uaIE11 emptyData);
                     requests := [] |}
                  eq_refl eq_refl)).
Defined.

(** C3 as stated fails: three services cannot be reached and the fourth
    refuses with status 429 and a JSON error body, so every entry has
    failed; yet the result is a record that names the fourth service as
    its source, with the placeholder as address, and not the failure
    marker. *)
Lemma C3_counterexample :
  netRateLimitedLast 0 "https://api.ipify.org?format=json"
  = Rejected TimedOut "Failed to fetch"
  /\ netRateLimitedLast 1 "https://httpbin.org/ip"
     = Rejected ConnectionFailed "Failed to fetch"
  /\ netRateLimitedLast 2 "https://api.myip.com"
     = Rejected Blocked "Failed to fetch"
  /\ netRateLimitedLast 3 "https://ipapi.co/json/"
     = Responded 429 (Parsed (JObj (<["error" := JStr "Too Many Requests"]> ∅)))
  /\ gatherNetworkInfo netRateLimitedLast freshWorld
     = (Normal tt,
        {| this_data :=
             {| browser := None; system := None;
                network :=
                  Some (<["publicIP" := JStr "Unable to determine"]>
                          (<["ipService" := JStr "https://ipapi.co/json/"]>
                             (<["headers" := JObj ∅]> ∅))) |};
           requests := ipServices |}).
Proof. repeat (split; [reflexivity|]). vm_compute. reflexivity. Qed.

(** C9 (as amended).  When an entry's body parses to a JSON value other
    than [null] that has none of the keys [ip], [origin], [query], the loop
    stops there: the entries after it are not asked, the record names that
    entry as its source, its [publicIP] is the text "Unable to determine",
    and it is not the failure marker. *)
Theorem C9_answer_without_address_is_final
        (net : nat -> string -> FetchOutcome)
        (pre post : list string) (service : string) (w : World)
        (st : nat) (data : JSValue) :
  allFail net (length (requests w)) pre = true ->
  net (length (requests w) + length pre) service = Responded st (Parsed data) ->
  nullish data = false ->
  hasKey data "ip" = false ->
  hasKey data "origin" = false ->
  hasKey data "query" = false ->
  exists (w' : World) (obj : gmap string JSValue),
    gatherNetworkInfoFrom net (pre ++ service :: post)%list w = (Normal tt, w')
    /\ requests w' = (requests w ++ pre ++ [service])%list
    /\ network (this_data w') = Some obj
    /\ obj !! "publicIP" = Some (JStr "Unable to determine")
    /\ obj !! "ipService" = Some (JStr service)
    /\ obj !! "error" = None
    /\ obj <> failureMarker.
Proof.
  intros Hpre Ho Hn Hip Horigin Hquery.
  exists (withNetwork (logged w (pre ++ [service])%list) (lookupResult data service)),
         (lookupResult data service).
  split; [exact (gather_success net pre post service w st data Hpre Ho Hn)|].
  split; [reflexivity|]. split; [reflexivity|].
  split.
  - rewrite lookupResult_publicIP. unfold pickIP.
    rewrite !absent_member by assumption. reflexivity.
  - split; [apply lookupResult_ipService|].
    split; [apply lookupResult_error | apply lookupResult_not_marker].
Qed.

Lemma C9_witness :
  exists (w' : World) (obj : gmap string JSValue),
    gatherNetworkInfo netNoAddress freshWorld = (Normal tt, w')
    /\ requests w' = ["https://api.ipify.org?format=json"]
    /\ network (this_data w') = Some obj
    /\ obj !! "publicIP" = Some (JStr "Unable to determine")
    /\ obj !! "ipService" = Some (JStr "https://api.ipify.org?format=json")
    /\ obj !! "error" = None
    /\ obj <> failureMarker.
Proof.
  exact (C9_answer_without_address_is_final netNoAddress []
           ["https://httpbin.org/ip"; "https://api.myip.com";
            "https://ipapi.co/json/"]
           "https://api.ipify.org?format=json" freshWorld 200
           (JObj (<["country" := JStr "IT"]> ∅))
           eq_refl eq_refl eq_refl eq_refl eq_refl eq_refl).
Defined.

(** C9 as stated fails: the body [null] parses as JSON and has none of the
    keys, yet reading its properties throws, so the loop goes on to the
    remaining services and, when they fail, ends with the failure marker. *)
Lemma C9_counterexample :
  netNullFirst 0 "https://api.ipify.org?format=json"
  = Responded 200 (Parsed JNull)
  /\ hasKey JNull "ip" = false
  /\ hasKey JNull "origin" = false
  /\ hasKey JNull "query" = false
  /\ gatherNetworkInfo netNullFirst freshWorld
     = (Normal tt,
        {| this_data :=
             {| browser := None; system := None;
                network := Some failureMarker |};
           requests := ipServices |}).
Proof. repeat split. Qed.

(** ** More on strings *)

Section MoreStringFacts.

Lemma append_cons (a : ascii) (s t : string) :
  String a s ++ t = String a (s ++ t).
Proof. reflexivity. Qed.

Lemma append_nil_r (s : string) : s ++ EmptyString = s.
Proof.
  induction s as [|a s IH]; [reflexivity|].
  rewrite append_cons, IH. reflexivity.
Qed.

Lemma append_assoc (a b c : string) : (a ++ b) ++ c = a ++ (b ++ c).
Proof.
  induction a as [|x a IH]; [reflexivity|].
  rewrite !append_cons, IH. reflexivity.
Qed.

Lemma length_append (a b : string) :
  String.length (a ++ b) = String.length a + String.length b.
Proof.
  induction a as [|x a IH]; [reflexivity|].
  rewrite append_cons. simpl. rewrite IH. reflexivity.
Qed.

Lemma startsWith_split (s p : string) :
  startsWith s p = true -> s = p ++ sliceFrom (String.length p) s.
Proof.
  revert s. induction p as [|a p IH]; intros s H.
  - destruct s; reflexivity.
  - destruct s as [|b s]; [discriminate|].
    simpl in H. apply andb_true_iff in H as [Hab H].
    apply Ascii.eqb_eq in Hab. subst b.
    change (sliceFrom (String.length (String a p)) (String a s))
      with (sliceFrom (String.length p) s).
    rewrite append_cons, <- (IH s H). reflexivity.
Qed.

Lemma sliceTo_consumed (w rest : string) :
  sliceTo (String.length (w ++ rest) - String.length rest) (w ++ rest) = w.
Proof.
  replace (String.length (w ++ rest) - String.length rest)
    with (String.length w) by (rewrite length_append; lia).
  induction w as [|a w IH].
  - destruct rest; reflexivity.
  - rewrite append_cons. simpl. rewrite IH. reflexivity.
Qed.

(** An occurrence can be cut out. *)
Lemma includes_inv (s sub : string) :
  includes s sub = true -> exists pre post, s = pre ++ sub ++ post.
Proof.
  induction s as [|a s IH]; intros H.
  - cbn [includes] in H. rewrite orb_false_r in H.
    exists EmptyString, (sliceFrom (String.length sub) EmptyString).
    apply (startsWith_split _ _ H).
  - rewrite includes_cons in H. apply orb_true_iff in H as [H | H].
    + exists EmptyString, (sliceFrom (String.length sub) (String a s)).
      apply (startsWith_split _ _ H).
    + destruct (IH H) as (pre & post & ->).
      exists (String a pre), post. reflexivity.
Qed.

Lemma allIn_app (p : ascii -> bool) (a b : string) :
  allIn p (a ++ b) = allIn p a && allIn p b.
Proof.
  induction a as [|x a IH]; [reflexivity|].
  rewrite append_cons. simpl. rewrite IH, andb_assoc. reflexivity.
Qed.

Lemma replaceAll_app (x y : ascii) (a b : string) :
  replaceAll x y (a ++ b) = replaceAll x y a ++ replaceAll x y b.
Proof.
  induction a as [|c a IH]; [reflexivity|].
  rewrite append_cons. simpl. rewrite IH. reflexivity.
Qed.

(** Replacing a character that does not occur changes nothing. *)
Lemma replaceAll_absent (p : ascii -> bool) (x y : ascii) (s : string) :
  p x = false -> allIn p s = true -> replaceAll x y s = s.
Proof.
  intros Hx. induction s as [|c s IH]; intros H; simpl in *; [reflexivity|].
  apply andb_true_iff in H as [Hc H]. rewrite (IH H).
  destruct (Ascii.eqb c x) eqn:E; [|reflexivity].
  apply Ascii.eqb_eq in E. congruence.
Qed.

End MoreStringFacts.

(** ** The search finds what the pattern describes *)

Section MatcherSoundness.
Context {A : Type}.

Lemma star_inv (c : charclass) (s : string) (k : string -> option A) (x : A) :
  star c s k = Some x ->
  exists ds rest, s = ds ++ rest /\ allIn (inClass c) ds = true /\ k rest = Some x.
Proof.
  induction s as [|a s IH]; intros H.
  - exists EmptyString, EmptyString. auto.
  - simpl in H. destruct (inClass c a) eqn:Ha.
    + destruct (star c s k) as [y|] eqn:Hs.
      * injection H as ->. destruct (IH eq_refl) as (ds & rest & -> & Hds & Hk).
        exists (String a ds), rest. simpl. rewrite Ha, Hds. auto.
      * exists EmptyString, (String a s). auto.
    + exists EmptyString, (String a s). auto.
Qed.

Lemma plus_inv (c : charclass) (s : string) (k : string -> option A) (x : A) :
  plus c s k = Some x ->
  exists ds rest,
    s = ds ++ rest /\ ds <> EmptyString /\ allIn (inClass c) ds = true
    /\ k rest = Some x.
Proof.
  destruct s as [|a s]; [discriminate|]. simpl.
  destruct (inClass c a) eqn:Ha; [|discriminate]. intros H.
  destruct (star_inv c s k x H) as (ds & rest & -> & Hds & Hk).
  exists (String a ds), rest. simpl. rewrite Ha, Hds.
  repeat split; auto; discriminate.
Qed.

(** Whatever [matchHere] accepts is a text the pattern derives, followed
    by the input handed to the continuation. *)
Lemma matchHere_sound (r : regex) :
  forall (s : string) (cap : option string)
         (k : string -> option string -> option A) (x : A),
    matchHere r s cap k = Some x ->
    exists w rest cap',
      s = w ++ rest /\ Derives r w cap cap' /\ k rest cap' = Some x.
Proof.
  induction r as [l | c | c | r1 IH1 r2 IH2 | r1 IH1 r2 IH2 | r IH];
    intros s cap k x H; simpl in H.
  - destruct (startsWith s l) eqn:E; [|discriminate].
    exists l, (sliceFrom (String.length l) s), cap.
    split; [apply startsWith_split, E|]. split; [constructor | exact H].
  - destruct s as [|a s]; [discriminate|].
    destruct (inClass c a) eqn:Ha; [|discriminate].
    exists (String a EmptyString), s, cap.
    split; [reflexivity|]. split; [constructor; exact Ha | exact H].
  - destruct (plus_inv c s _ x H) as (ds & rest & -> & Hne & Hds & Hk).
    exists ds, rest, cap. split; [reflexivity|].
    split; [constructor; assumption | exact Hk].
  - destruct (IH1 _ _ _ _ H) as (w1 & s1 & c1 & -> & D1 & H1).
    destruct (IH2 _ _ _ _ H1) as (w2 & s2 & c2 & -> & D2 & H2).
    exists (w1 ++ w2), s2, c2. split; [symmetry; apply append_assoc|].
    split; [econstructor; eassumption | exact H2].
  - destruct (matchHere r1 s cap k) as [y|] eqn:E.
    + injection H as ->. destruct (IH1 _ _ _ _ E) as (w & rest & c' & -> & D & Hk).
      exists w, rest, c'. split; [reflexivity|].
      split; [apply DAltL, D | exact Hk].
    + destruct (IH2 _ _ _ _ H) as (w & rest & c' & -> & D & Hk).
      exists w, rest, c'. split; [reflexivity|].
      split; [apply DAltR, D | exact Hk].
  - destruct (IH _ _ _ _ H) as (w & rest & c' & -> & D & Hk).
    rewrite sliceTo_consumed in Hk.
    exists w, rest, (Some w). split; [reflexivity|].
    split; [econstructor; exact D | exact Hk].
Qed.

End MatcherSoundness.

Section SearchSoundness.

Lemma matchAt_sound (r : regex) (s g : string) :
  matchAt r s = Some g ->
  exists w rest cap,
    s = w ++ rest /\ Derives r w None cap /\ g = groupText cap.
Proof.
  unfold matchAt. intros H.
  destruct (matchHere_sound r _ _ _ _ H) as (w & rest & cap & -> & D & Hk).
  injection Hk as <-. exists w, rest, cap. auto.
Qed.

(** A successful search cuts the input into what precedes the match, the
    match, and what follows. *)
Lemma jsMatch_sound (r : regex) (s g : string) :
  jsMatch s r = Some g ->
  exists pre w post cap,
    s = pre ++ w ++ post /\ Derives r w None cap /\ g = groupText cap.
Proof.
  induction s as [|a s IH]; intros H; cbn [jsMatch] in H.
  - destruct (matchAt r EmptyString) as [g'|] eqn:E; [|discriminate].
    injection H as ->. destruct (matchAt_sound r _ _ E) as (w & rest & cap & Hs & D & Hg).
    exists EmptyString, w, rest, cap. auto.
  - destruct (matchAt r (String a s)) as [g'|] eqn:E.
    + injection H as ->.
      destruct (matchAt_sound r _ _ E) as (w & rest & cap & Hs & D & Hg).
      exists EmptyString, w, rest, cap. auto.
    + destruct (IH H) as (pre & w & post & cap & -> & D & Hg).
      exists (String a pre), w, post, cap. auto.
Qed.

End SearchSoundness.

(** ** What the patterns of the source capture *)

Section PatternShapes.

Lemma Derives_Lit_inv (l w : string) (c c' : option string) :
  Derives (Lit l) w c c' -> w = l /\ c' = c.
Proof. inversion 1; subst; auto. Qed.

Lemma Derives_Cls_inv (cl : charclass) (w : string) (c c' : option string) :
  Derives (Cls cl) w c c' ->
  exists a, w = String a EmptyString /\ inClass cl a = true /\ c' = c.
Proof. inversion 1; subst; eauto. Qed.

Lemma Derives_Plus_inv (cl : charclass) (w : string) (c c' : option string) :
  Derives (Plus cl) w c c' ->
  w <> EmptyString /\ allIn (inClass cl) w = true /\ c' = c.
Proof. inversion 1; subst; auto. Qed.

Lemma Derives_Seq_inv (r1 r2 : regex) (w : string) (c0 c2 : option string) :
  Derives (Seq r1 r2) w c0 c2 ->
  exists w1 w2 c1,
    w = w1 ++ w2 /\ Derives r1 w1 c0 c1 /\ Derives r2 w2 c1 c2.
Proof. inversion 1; subst; eauto 7. Qed.

Lemma Derives_Alt_inv (r1 r2 : regex) (w : string) (c0 c1 : option string) :
  Derives (Alt r1 r2) w c0 c1 -> Derives r1 w c0 c1 \/ Derives r2 w c0 c1.
Proof. inversion 1; subst; auto. Qed.

Lemma Derives_Group_inv (r : regex) (w : string) (c0 c' : option string) :
  Derives (Group r) w c0 c' -> c' = Some w /\ exists c1, Derives r w c0 c1.
Proof. inversion 1; subst; eauto. Qed.

Lemma derives_number (w : string) (c c' : option string) :
  Derives (Plus Digit) w c c' -> isNumber w.
Proof. intros H. apply Derives_Plus_inv in H as (Hne & Hall & _). split; assumption. Qed.

Lemma derives_majorMinor (w : string) (c c' : option string) :
  Derives majorMinor w c c' -> isMajorMinor w.
Proof.
  unfold majorMinor. intros H.
  apply Derives_Seq_inv in H as (a & w2 & c1 & -> & Ha & H).
  apply Derives_Seq_inv in H as (dot & b & c2 & -> & Hdot & Hb).
  apply Derives_Lit_inv in Hdot as [-> _].
  exists a, b. eauto using derives_number.
Qed.

(** A pattern made of a literal and a captured [major.minor]. *)
Lemma derives_token_version (L w : string) (cap : option string) :
  Derives (Seq (Lit L) (Group majorMinor)) w None cap ->
  w = L ++ groupText cap /\ isMajorMinor (groupText cap).
Proof.
  intros H.
  apply Derives_Seq_inv in H as (l & g & c1 & -> & Hl & Hg).
  apply Derives_Lit_inv in Hl as [-> ->].
  apply Derives_Group_inv in Hg as [-> [c2 Hg]].
  split; [reflexivity | exact (derives_majorMinor _ _ _ Hg)].
Qed.

Lemma jsMatch_token_version (L ua g : string) :
  jsMatch ua (Seq (Lit L) (Group majorMinor)) = Some g ->
  isMajorMinor g /\ includes ua (L ++ g) = true.
Proof.
  intros H.
  destruct (jsMatch_sound _ _ _ H) as (pre & w & post & cap & -> & D & ->).
  apply derives_token_version in D as [-> Hv].
  split; [exact Hv | apply includes_token].
Qed.

Lemma isNumber_head (s : string) : isNumber s -> headIs isDigit s = true.
Proof.
  intros [Hne H]. destruct s as [|a s]; [congruence|].
  simpl in *. apply andb_true_iff in H as [H _]. exact H.
Qed.

(** The sentinel is not a version. *)
Lemma isMajorMinor_not_unknown (v : string) : isMajorMinor v -> v <> "Unknown".
Proof.
  intros (a & b & Ha & _ & ->) E. apply isNumber_head in Ha.
  destruct a as [|x a]; [discriminate|].
  rewrite append_cons in E. injection E as -> _. discriminate.
Qed.

End PatternShapes.

(** ** Versions *)

Lemma jsMatch_opera_version (ua g : string) :
  jsMatch ua reOpera = Some g ->
  isMajorMinor g
  /\ (includes ua ("Opera/" ++ g) = true \/ includes ua ("OPR/" ++ g) = true).
Proof.
  intros H.
  destruct (jsMatch_sound _ _ _ H) as (pre & w & post & cap & -> & D & ->).
  apply Derives_Seq_inv in D as (name & tail & c1 & -> & Hname & D).
  apply Derives_Seq_inv in D as (slash & g & c2 & -> & Hslash & Hg).
  apply Derives_Lit_inv in Hslash as [-> ->].
  apply Derives_Group_inv in Hg as [-> [c3 Hg]].
  split; [exact (derives_majorMinor _ _ _ Hg)|].
  apply Derives_Alt_inv in Hname as [Hn | Hn];
    apply Derives_Lit_inv in Hn as [-> _]; [left | right].
  - exact (includes_token pre ("Opera/" ++ g) post).
  - exact (includes_token pre ("OPR/" ++ g) post).
Qed.

(** ** The search misses nothing *)

Section MatcherCompleteness.
Context {A : Type}.

Lemma star_reaches (c : charclass) (s : string) (k : string -> option A) :
  (exists y, k s = Some y) -> exists y, star c s k = Some y.
Proof.
  intros Hk. destruct s as [|a s]; simpl; [exact Hk|].
  destruct (inClass c a); [|exact Hk].
  destruct (star c s k); eauto.
Qed.

Lemma star_complete (c : charclass) (ds rest : string)
      (k : string -> option A) :
  allIn (inClass c) ds = true ->
  (exists y, k rest = Some y) -> exists y, star c (ds ++ rest) k = Some y.
Proof.
  intros Hds Hk. induction ds as [|a ds IH]; [apply star_reaches, Hk|].
  simpl in Hds. apply andb_true_iff in Hds as [Ha Hds].
  rewrite append_cons. simpl. rewrite Ha.
  destruct (IH Hds) as [y ->]. eauto.
Qed.

Lemma plus_complete (c : charclass) (ds rest : string)
      (k : string -> option A) :
  ds <> EmptyString -> allIn (inClass c) ds = true ->
  (exists y, k rest = Some y) -> exists y, plus c (ds ++ rest) k = Some y.
Proof.
  intros Hne Hds Hk. destruct ds as [|a ds]; [congruence|].
  simpl in Hds. apply andb_true_iff in Hds as [Ha Hds].
  rewrite append_cons. simpl. rewrite Ha.
  apply star_complete; assumption.
Qed.

End MatcherCompleteness.

Section SearchCompleteness.

Lemma sliceFrom_app (p s : string) : sliceFrom (String.length p) (p ++ s) = s.
Proof.
  induction p as [|a p IH]; [destruct s; reflexivity|].
  rewrite append_cons. simpl. exact IH.
Qed.

Lemma jsMatch_complete (r : regex) (pre t g0 : string) :
  matchAt r t = Some g0 -> exists g, jsMatch (pre ++ t) r = Some g.
Proof.
  intros H. induction pre as [|a pre IH].
  - exists g0. apply jsMatch_here, H.
  - rewrite append_cons. cbn [jsMatch].
    destruct (matchAt r (String a (pre ++ t))); eauto.
Qed.

(** If the text contains an occurrence the pattern accepts, the search
    succeeds. *)
Lemma jsMatch_finds (r : regex) (s occ : string) :
  includes s occ = true ->
  (forall post, exists g, matchAt r (occ ++ post) = Some g) ->
  exists g, jsMatch s r = Some g.
Proof.
  intros Hin Hocc. destruct (includes_inv _ _ Hin) as (pre & post & ->).
  destruct (Hocc post) as [g0 Hg0].
  exact (jsMatch_complete r pre (occ ++ post) g0 Hg0).
Qed.

Lemma majorMinor_accepts {A : Type} (a b post : string) (cap : option string)
      (k : string -> option string -> option A) :
  isNumber a -> isNumber b ->
  (forall rest c, exists y, k rest c = Some y) ->
  exists y, matchHere majorMinor ((a ++ "." ++ b) ++ post) cap k = Some y.
Proof.
  intros [Hane Ha] [Hbne Hb] Hk. unfold majorMinor. cbn [matchHere].
  rewrite !append_assoc. apply plus_complete; [assumption..|].
  change (("." ++ b ++ post)) with (String "." (b ++ post)).
  cbn [startsWith Ascii.eqb Bool.eqb andb sliceFrom String.length].
  rewrite startsWith_nil.
  apply plus_complete; [assumption..|]. apply Hk.
Qed.

Lemma matchAt_token_version_accepts (L a b post : string) :
  isNumber a -> isNumber b ->
  exists g, matchAt (Seq (Lit L) (Group majorMinor))
              ((L ++ a ++ "." ++ b) ++ post) = Some g.
Proof.
  intros Ha Hb. unfold matchAt. cbn [matchHere].
  rewrite append_assoc, startsWith_app, sliceFrom_app.
  apply majorMinor_accepts; eauto.
Qed.

(** A pattern made of a literal and a captured [major.minor] fails
    exactly on the texts in which the literal is nowhere followed by a
    [major.minor]. *)
Lemma jsMatch_token_version_found (L ua : string) :
  hasVersionAfter L ua ->
  exists g, jsMatch ua (Seq (Lit L) (Group majorMinor)) = Some g.
Proof.
  intros (a & b & Ha & Hb & Hin).
  apply (jsMatch_finds _ _ _ Hin). intros post.
  apply matchAt_token_version_accepts; assumption.
Qed.

Lemma jsMatch_token_version_none (L ua : string) :
  jsMatch ua (Seq (Lit L) (Group majorMinor)) = None ->
  ~ hasVersionAfter L ua.
Proof.
  intros Hnone Hhas.
  destruct (jsMatch_token_version_found L ua Hhas) as [g Hg]. congruence.
Qed.

Lemma isMajorMinor_hasVersionAfter (L ua g : string) :
  isMajorMinor g -> includes ua (L ++ g) = true -> hasVersionAfter L ua.
Proof. intros (a & b & Ha & Hb & ->) Hin. exists a, b. auto. Qed.

End SearchCompleteness.

Section MoreSearchFacts.

Lemma matchHere_lit_app {A : Type} (L s : string) (cap : option string)
      (k : string -> option string -> option A) :
  matchHere (Lit L) (L ++ s) cap k = k s cap.
Proof. cbn [matchHere]. rewrite startsWith_app, sliceFrom_app. reflexivity. Qed.

Lemma matchAt_opera_accepts (tok a b post : string) :
  tok = "Opera" \/ tok = "OPR" -> isNumber a -> isNumber b ->
  exists g, matchAt reOpera (((tok ++ "/") ++ a ++ "." ++ b) ++ post) = Some g.
Proof.
  intros Htok Ha Hb. unfold matchAt, reOpera.
  rewrite !append_assoc. cbn [matchHere].
  assert (Hrest : exists g,
             matchHere (Lit "/") ("/" ++ (a ++ "." ++ b) ++ post) None
               (fun s' cap' =>
                  matchHere (Group majorMinor) s' cap'
                    (fun _ cap => Some (groupText cap))) = Some g).
  { rewrite matchHere_lit_app. cbn [matchHere].
    apply majorMinor_accepts; eauto. }
  destruct Hrest as [g Hg]. rewrite !append_assoc in Hg.
  cbn [matchHere] in Hg.
  destruct Htok as [-> | ->].
  - rewrite startsWith_app, sliceFrom_app. unfold groupText in Hg.
    rewrite Hg. eauto.
  - replace (startsWith ("OPR" ++ "/" ++ a ++ "." ++ b ++ post) "Opera")
      with false by reflexivity.
    rewrite startsWith_app, sliceFrom_app. unfold groupText in Hg.
    rewrite Hg. eauto.
Qed.

Lemma jsMatch_opera_found (tok ua : string) :
  tok = "Opera/" \/ tok = "OPR/" -> hasVersionAfter tok ua ->
  exists g, jsMatch ua reOpera = Some g.
Proof.
  intros Htok (a & b & Ha & Hb & Hin).
  apply (jsMatch_finds _ _ _ Hin). intros post.
  destruct Htok as [-> | ->].
  - apply (matchAt_opera_accepts "Opera"); auto.
  - apply (matchAt_opera_accepts "OPR"); auto.
Qed.

Lemma jsMatch_gecko_found (ua : string) :
  hasNumberAfter "Gecko/" ua -> exists g, jsMatch ua reGecko = Some g.
Proof.
  intros (a & [Hne Ha] & Hin).
  apply (jsMatch_finds _ _ _ Hin). intros post.
  unfold matchAt, reGecko. cbn [matchHere].
  rewrite append_assoc, startsWith_app, sliceFrom_app.
  apply plus_complete; eauto.
Qed.

Lemma jsMatch_gecko_sound (ua g : string) :
  jsMatch ua reGecko = Some g ->
  isNumber g /\ includes ua ("Gecko/" ++ g) = true.
Proof.
  intros H.
  destruct (jsMatch_sound _ _ _ H) as (pre & w & post & cap & -> & D & ->).
  apply Derives_Seq_inv in D as (l & g & c1 & -> & Hl & Hg).
  apply Derives_Lit_inv in Hl as [-> ->].
  apply Derives_Group_inv in Hg as [-> [c2 Hg]].
  split; [exact (derives_number _ _ _ Hg)|].
  exact (includes_token pre ("Gecko/" ++ g) post).
Qed.

End MoreSearchFacts.

(** X2.  When the user agent has a [major.minor] right after the token of
    the browser named, the browser version is a [major.minor], not the
    Unknown sentinel. *)
Theorem X2_browser_version_found_when_present (ua tok : string) :
  In (getBrowserName ua, tok) browserVersionTokens ->
  hasVersionAfter tok ua ->
  isMajorMinor (getBrowserVersion ua)
  /\ getBrowserVersion ua <> "Unknown".
Proof.
  intros Hin Hhas.
  assert (Hv : isMajorMinor (getBrowserVersion ua));
    [|split; [exact Hv | exact (isMajorMinor_not_unknown _ Hv)]].
  unfold getBrowserVersion. cbv zeta. simpl in Hin.
  repeat match type of Hin with
         | _ \/ _ => destruct Hin as [Hin | Hin]
         end; try contradiction;
    injection Hin as Hname <-; rewrite <- Hname; simpl.
  - destruct (jsMatch_token_version_found "Chrome/" ua Hhas) as [g Hg].
    unfold reChrome. rewrite Hg. exact (proj1 (jsMatch_token_version _ _ _ Hg)).
  - destruct (jsMatch_token_version_found "Firefox/" ua Hhas) as [g Hg].
    unfold reFirefox. rewrite Hg. exact (proj1 (jsMatch_token_version _ _ _ Hg)).
  - destruct (jsMatch_token_version_found "Version/" ua Hhas) as [g Hg].
    unfold reVersion. rewrite Hg. exact (proj1 (jsMatch_token_version _ _ _ Hg)).
  - destruct (jsMatch_token_version_found "Edge/" ua Hhas) as [g Hg].
    unfold reEdge. rewrite Hg. exact (proj1 (jsMatch_token_version _ _ _ Hg)).
  - destruct (jsMatch_opera_found "Opera/" ua (or_introl eq_refl) Hhas) as [g Hg].
    rewrite Hg. exact (proj1 (jsMatch_opera_version _ _ Hg)).
  - destruct (jsMatch_opera_found "OPR/" ua (or_intror eq_refl) Hhas) as [g Hg].
    rewrite Hg. exact (proj1 (jsMatch_opera_version _ _ Hg)).
Qed.

Lemma X2_witness :
  isMajorMinor (getBrowserVersion uaSafariMac)
  /\ getBrowserVersion uaSafariMac <> "Unknown".
Proof.
  apply (X2_browser_version_found_when_present uaSafariMac "Version/").
  - simpl. tauto.
  - exists "17", "1". repeat split; try discriminate; reflexivity.
Defined.

(** X3.  The engine version is the [major.minor] after a "WebKit/" when the
    user agent has one; otherwise the digits after a "Gecko/" when it has
    some; otherwise the Unknown sentinel. *)
Theorem X3_engine_version_webkit_then_gecko (ua : string) :
  (hasVersionAfter "WebKit/" ua
   /\ isMajorMinor (getEngineVersion ua)
   /\ includes ua ("WebKit/" ++ getEngineVersion ua) = true)
  \/ (~ hasVersionAfter "WebKit/" ua
      /\ hasNumberAfter "Gecko/" ua
      /\ isNumber (getEngineVersion ua)
      /\ includes ua ("Gecko/" ++ getEngineVersion ua) = true)
  \/ (~ hasVersionAfter "WebKit/" ua
      /\ ~ hasNumberAfter "Gecko/" ua
      /\ getEngineVersion ua = "Unknown").
Proof.
  unfold getEngineVersion.
  destruct (jsMatch ua reWebKit) as [g|] eqn:Mw.
  - left. destruct (jsMatch_token_version _ _ _ Mw) as [Hv Hi].
    split; [exact (isMajorMinor_hasVersionAfter _ _ _ Hv Hi) | auto].
  - right. pose proof (jsMatch_token_version_none _ _ Mw) as Hno.
    destruct (jsMatch ua reGecko) as [g|] eqn:Mg.
    + left. destruct (jsMatch_gecko_sound _ _ Mg) as [Hn Hi].
      split; [exact Hno|]. split; [exists g; auto | auto].
    + right. split; [exact Hno|]. split; [|reflexivity].
      intros Hhas. destruct (jsMatch_gecko_found ua Hhas) as [g Hg]. congruence.
Qed.

Section OSVersionFacts.

Lemma separator_replaced (x : ascii) :
  inClass (AnyOf "._") x = true ->
  replaceAll "_" "." (String x EmptyString) = ".".
Proof.
  simpl. rewrite orb_false_r. intros H. apply orb_true_iff in H as [H | H];
    apply Ascii.eqb_eq in H; subst x; reflexivity.
Qed.

Lemma number_keeps (a : string) : isNumber a -> replaceAll "_" "." a = a.
Proof. intros [_ H]. exact (replaceAll_absent isDigit "_" "." a eq_refl H). Qed.

Lemma jsMatch_macosx_sound (ua g : string) :
  jsMatch ua reMacOSX = Some g ->
  isTriple (replaceAll "_" "." g) /\ includes ua ("Mac OS X " ++ g) = true.
Proof.
  intros H.
  destruct (jsMatch_sound _ _ _ H) as (pre & w & post & cap & -> & D & ->).
  apply Derives_Seq_inv in D as (l & g & c1 & -> & Hl & Hg).
  apply Derives_Lit_inv in Hl as [-> ->].
  apply Derives_Group_inv in Hg as [-> [c2 Hg]].
  split; [|exact (includes_token pre ("Mac OS X " ++ g) post)].
  apply Derives_Seq_inv in Hg as (a & g1 & c3 & -> & Ha & Hg).
  apply Derives_Seq_inv in Hg as (s1 & g2 & c4 & -> & Hs1 & Hg).
  apply Derives_Seq_inv in Hg as (b & g3 & c5 & -> & Hb & Hg).
  apply Derives_Seq_inv in Hg as (s2 & c & c6 & -> & Hs2 & Hc).
  apply Derives_Cls_inv in Hs1 as (x1 & -> & Hx1 & _).
  apply Derives_Cls_inv in Hs2 as (x2 & -> & Hx2 & _).
  apply derives_number in Ha, Hb, Hc. cbn [groupText].
  rewrite !replaceAll_app, !separator_replaced, !number_keeps by assumption.
  exists a, b, c. auto.
Qed.

Lemma jsMatch_ios_sound (ua g : string) :
  jsMatch ua reIOS = Some g ->
  isMajorMinor (replaceAll "_" "." g) /\ includes ua ("OS " ++ g) = true.
Proof.
  intros H.
  destruct (jsMatch_sound _ _ _ H) as (pre & w & post & cap & -> & D & ->).
  apply Derives_Seq_inv in D as (l & g & c1 & -> & Hl & Hg).
  apply Derives_Lit_inv in Hl as [-> ->].
  apply Derives_Group_inv in Hg as [-> [c2 Hg]].
  split; [|exact (includes_token pre ("OS " ++ g) post)].
  apply Derives_Seq_inv in Hg as (a & g1 & c3 & -> & Ha & Hg).
  apply Derives_Seq_inv in Hg as (u & b & c4 & -> & Hu & Hb).
  apply Derives_Lit_inv in Hu as [-> _].
  apply derives_number in Ha, Hb. cbn [groupText].
  rewrite !replaceAll_app, (number_keeps a), (number_keeps b) by assumption.
  exists a, b. split; [exact Ha|]. split; [exact Hb | reflexivity].
Qed.

Lemma allIn_weaken (p q : ascii -> bool) (s : string) :
  (forall c, p c = true -> q c = true) -> allIn p s = true -> allIn q s = true.
Proof.
  intros Hpq. induction s as [|a s IH]; simpl; [reflexivity|].
  intros H. apply andb_true_iff in H as [Ha H].
  rewrite (Hpq a Ha), (IH H). reflexivity.
Qed.

Lemma includes_char_absent (p : ascii -> bool) (x : ascii) (s : string) :
  p x = false -> allIn p s = true ->
  includes s (String x EmptyString) = false.
Proof.
  intros Hx. induction s as [|c s IH]; intros H; [reflexivity|].
  simpl in H. apply andb_true_iff in H as [Hc H].
  rewrite includes_cons, (IH H), orb_false_r. simpl.
  destruct (Ascii.eqb x c) eqn:E; [|reflexivity].
  apply Ascii.eqb_eq in E. congruence.
Qed.

Lemma isNumber_digitOrDot (a : string) :
  isNumber a -> allIn digitOrDot a = true.
Proof.
  intros [_ H]. apply (allIn_weaken isDigit); [|exact H].
  intros c Hc. unfold digitOrDot. rewrite Hc. reflexivity.
Qed.

Lemma isMajorMinor_no_underscore (v : string) :
  isMajorMinor v -> includes v "_" = false.
Proof.
  intros (a & b & Ha & Hb & ->).
  apply (includes_char_absent digitOrDot); [reflexivity|].
  rewrite !allIn_app, (isNumber_digitOrDot a), (isNumber_digitOrDot b)
    by assumption.
  reflexivity.
Qed.

Lemma isTriple_no_underscore (v : string) :
  isTriple v -> includes v "_" = false.
Proof.
  intros (a & b & c & Ha & Hb & Hc & ->).
  apply (includes_char_absent digitOrDot); [reflexivity|].
  rewrite !allIn_app, (isNumber_digitOrDot a), (isNumber_digitOrDot b),
    (isNumber_digitOrDot c) by assumption.
  reflexivity.
Qed.

End OSVersionFacts.

(** X4.  The OS version is the Unknown sentinel, a [major.minor] or a
    [major.minor.patch]; it never contains an underscore, whatever the
    user agent. *)
Theorem X4_os_version_is_dotted (ua : string) :
  (getOSVersion ua = "Unknown"
   \/ isMajorMinor (getOSVersion ua)
   \/ isTriple (getOSVersion ua))
  /\ includes (getOSVersion ua) "_" = false.
Proof.
  assert (H : getOSVersion ua = "Unknown"
              \/ isMajorMinor (getOSVersion ua)
              \/ isTriple (getOSVersion ua)).
  { unfold getOSVersion.
    destruct (jsMatch ua reWindowsNT) as [g|] eqn:Mw.
    { right. left. exact (proj1 (jsMatch_token_version _ _ _ Mw)). }
    destruct (jsMatch ua reMacOSX) as [g|] eqn:Mm.
    { right. right. exact (proj1 (jsMatch_macosx_sound _ _ Mm)). }
    destruct (jsMatch ua reAndroid) as [g|] eqn:Ma.
    { right. left. exact (proj1 (jsMatch_token_version _ _ _ Ma)). }
    destruct (jsMatch ua reIOS) as [g|] eqn:Mi.
    { right. left. exact (proj1 (jsMatch_ios_sound _ _ Mi)). }
    left. reflexivity. }
  split; [exact H|].
  destruct H as [-> | [H | H]].
  - reflexivity.
  - exact (isMajorMinor_no_underscore _ H).
  - exact (isTriple_no_underscore _ H).
Qed.

(** X5.  When the operating system is named after a Windows NT number
    (Windows 10/11, 8.1, 8 or 7), the OS version is never the Unknown
    sentinel: it is a [major.minor] that stands in the user agent right
    after "Windows NT ". *)
Theorem X5_windows_name_has_a_version (ua : string) :
  In (getOperatingSystem ua)
     ["Windows 10/11"; "Windows 8.1"; "Windows 8"; "Windows 7"] ->
  isMajorMinor (getOSVersion ua)
  /\ getOSVersion ua <> "Unknown"
  /\ includes ua ("Windows NT " ++ getOSVersion ua) = true.
Proof.
  intros Hname.
  assert (Hhas : hasVersionAfter "Windows NT " ua).
  { unfold getOperatingSystem in Hname.
    destruct (includes ua "Windows NT 10.0") eqn:E1;
      [exists "10", "0"; repeat split; try discriminate; exact E1|].
    destruct (includes ua "Windows NT 6.3") eqn:E2;
      [exists "6", "3"; repeat split; try discriminate; exact E2|].
    destruct (includes ua "Windows NT 6.2") eqn:E3;
      [exists "6", "2"; repeat split; try discriminate; exact E3|].
    destruct (includes ua "Windows NT 6.1") eqn:E4;
      [exists "6", "1"; repeat split; try discriminate; exact E4|].
    exfalso.
    repeat match type of Hname with
           | context [if ?b then _ else _] => destruct b
           end;
      simpl in Hname; intuition discriminate. }
  destruct (jsMatch_token_version_found _ _ Hhas) as [g Hg].
  unfold getOSVersion. fold reWindowsNT in Hg. rewrite Hg.
  destruct (jsMatch_token_version _ _ _ Hg) as [Hv Hi].
  split; [exact Hv|]. split; [exact (isMajorMinor_not_unknown _ Hv) | exact Hi].
Qed.

Lemma X5_witness :
  isMajorMinor (getOSVersion uaIE11)
  /\ getOSVersion uaIE11 <> "Unknown"
  /\ includes uaIE11 ("Windows NT " ++ getOSVersion uaIE11) = true.
Proof.
  apply X5_windows_name_has_a_version. vm_compute. tauto.
Defined.

(** ** Names *)

(** X6.  The browser is named Firefox, Chrome or Chromium exactly when one
    of these three words occurs in the user agent; a user agent with
    "Chrome" in it is therefore never named Safari, Edge, Opera or Internet
    Explorer, whatever else it contains. *)
Theorem X6_chrome_family_shadows_the_rest (ua : string) :
  (includes ua "Firefox" = true \/ includes ua "Chrome" = true
   \/ includes ua "Chromium" = true)
  <-> In (getBrowserName ua) ["Firefox"; "Chrome"; "Chromium"].
Proof.
  unfold getBrowserName.
  destruct (includes ua "Firefox"), (includes ua "Chrome"),
    (includes ua "Chromium"); simpl;
    try (split; intros _; tauto).
  repeat match goal with
         | |- context [if ?b then _ else _] => destruct b
         end;
    (split; [intros [H | [H | H]]; discriminate
            | simpl; intros H; intuition discriminate]).
Qed.

Lemma X6_witness :
  includes uaEdgeChromium "Edg/" = true
  /\ In (getBrowserName uaEdgeChromium) ["Firefox"; "Chrome"; "Chromium"].
Proof.
  split; [reflexivity|].
  apply (proj1 (X6_chrome_family_shadows_the_rest uaEdgeChromium)).
  right. left. reflexivity.
Defined.

(** X7.  The operating system is named Android, iOS or iPadOS (or left
    Unknown) only for a user agent that contains none of "Windows",
    "Mac OS X" and "Linux". *)
Theorem X7_mobile_names_need_no_desktop_token (ua : string) :
  In (getOperatingSystem ua) ["Android"; "iOS"; "iPadOS"; "Unknown"] ->
  includes ua "Windows" = false
  /\ includes ua "Mac OS X" = false
  /\ includes ua "Linux" = false.
Proof.
  unfold getOperatingSystem. intros H.
  repeat match type of H with
         | context [if includes ua ?t then _ else _] =>
             destruct (includes ua t) eqn:?
         end;
    simpl in H; try (exfalso; intuition discriminate); auto.
Qed.

Lemma X7_witness :
  includes uaAndroidPlain "Windows" = false
  /\ includes uaAndroidPlain "Mac OS X" = false
  /\ includes uaAndroidPlain "Linux" = false.
Proof.
  apply X7_mobile_names_need_no_desktop_token. vm_compute. tauto.
Defined.

Example iphone_is_named_macos :
  getOperatingSystem uaIPhone = "macOS" /\ getOSVersion uaIPhone = "17.2".
Proof. vm_compute. split; reflexivity. Qed.


(** X8.  Started without a lookup result, the lookup always ends with one,
    and it is one of two things: the failure marker, after every entry was
    asked and failed; or a record whose source is one of the entries, the
    last one asked, carrying no error. *)
Theorem X8_result_is_marker_or_from_last_asked
        (net : nat -> string -> FetchOutcome)
        (services : list string) (w : World) :
  network (this_data w) = None ->
  exists (w' : World) (obj : gmap string JSValue),
    gatherNetworkInfoFrom net services w = (Normal tt, w')
    /\ network (this_data w') = Some obj
    /\ ((obj = failureMarker
         /\ requests w' = (requests w ++ services)%list
         /\ allFail net (length (requests w)) services = true)
        \/ (exists n service,
               services !! n = Some service
               /\ requests w' = (requests w ++ firstn (S n) services)%list
               /\ last (requests w') = Some service
               /\ obj !! "ipService" = Some (JStr service)
               /\ obj !! "error" = None
               /\ obj <> failureMarker)).
Proof.
  intros Hnone.
  destruct (forOf_outcome net services w)
    as [[Hall Hrun] | (n & service & st & data & Hn & Hall & Ho & Hnull & Hrun)].
  - exists (withNetwork (logged w services) failureMarker), failureMarker.
    split; [exact (gather_exhausted net services w Hnone Hall)|].
    split; [reflexivity|]. left. auto.
  - exists (withNetwork (logged w (firstn (S n) services))
              (lookupResult data service)), (lookupResult data service).
    split.
    { unfold gatherNetworkInfoFrom, tryCatch, bind. rewrite Hrun. reflexivity. }
    split; [reflexivity|]. right. exists n, service.
    split; [exact Hn|]. split; [reflexivity|].
    split.
    { simpl. rewrite (take_S_r services n service Hn), app_assoc.
      apply last_snoc. }
    split; [apply lookupResult_ipService|].
    split; [apply lookupResult_error | apply lookupResult_not_marker].
Qed.

Lemma X8_witness :
  exists (w' : World) (obj : gmap string JSValue),
    gatherNetworkInfo netNoAddress freshWorld = (Normal tt, w')
    /\ network (this_data w') = Some obj
    /\ ((obj = failureMarker
         /\ requests w' = ipServices
         /\ allFail netNoAddress 0 ipServices = true)
        \/ (exists n service,
               ipServices !! n = Some service
               /\ requests w' = firstn (S n) ipServices
               /\ last (requests w') = Some service
               /\ obj !! "ipService" = Some (JStr service)
               /\ obj !! "error" = None
               /\ obj <> failureMarker)).
Proof.
  exact (X8_result_is_marker_or_from_last_asked netNoAddress ipServices
           freshWorld eq_refl).
Defined.

(** X9.  Started without a lookup result, the lookup always leaves a
    [publicIP] that is truthy: an address taken from an answer, or one of
    the two notices; never an empty text, [null] or nothing. *)
Theorem X9_public_ip_is_always_set
        (net : nat -> string -> FetchOutcome)
        (services : list string) (w : World) :
  network (this_data w) = None ->
  exists (w' : World) (obj : gmap string JSValue) (v : JSValue),
    gatherNetworkInfoFrom net services w = (Normal tt, w')
    /\ network (this_data w') = Some obj
    /\ obj !! "publicIP" = Some v
    /\ toBoolean v = true.
Proof.
  intros Hnone.
  destruct (forOf_outcome net services w)
    as [[Hall Hrun] | (n & service & st & data & Hn & Hall & Ho & Hnull & Hrun)].
  - exists (withNetwork (logged w services) failureMarker), failureMarker,
           (JStr "Unable to determine (CORS/Network restrictions)").
    split; [exact (gather_exhausted net services w Hnone Hall)|].
    repeat split.
  - exists (withNetwork (logged w (firstn (S n) services))
              (lookupResult data service)), (lookupResult data service),
           (pickIP data).
    split.
    { unfold gatherNetworkInfoFrom, tryCatch, bind. rewrite Hrun. reflexivity. }
    split; [reflexivity|].
    split; [apply lookupResult_publicIP | apply pickIP_truthy].
Qed.

Lemma X9_witness :
  exists (w' : World) (obj : gmap string JSValue) (v : JSValue),
    gatherNetworkInfo netNullFirst freshWorld = (Normal tt, w')
    /\ network (this_data w') = Some obj
    /\ obj !! "publicIP" = Some v
    /\ toBoolean v = true.
Proof.
  exact (X9_public_ip_is_always_set netNullFirst ipServices freshWorld eq_refl).
Defined.

(** X10.  A lookup that runs while an earlier result is held and finds
    every entry failing leaves that earlier result in place: each entry is
    asked once, and neither the failure marker nor anything else is
    written. *)
Theorem X10_failed_rerun_keeps_old_result
        (net : nat -> string -> FetchOutcome)
        (services : list string) (w : World) (old : gmap string JSValue) :
  network (this_data w) = Some old ->
  allFail net (length (requests w)) services = true ->
  gatherNetworkInfoFrom net services w = (Normal tt, logged w services)
  /\ network (this_data (logged w services)) = Some old.
Proof.
  intros Hold Hall. split; [|exact Hold].
  unfold gatherNetworkInfoFrom, tryCatch, bind.
  rewrite <- (app_nil_r services) at 1.
  rewrite forOf_skip by exact Hall.
  simpl. unfold getNetwork, logged. simpl. rewrite Hold. reflexivity.
Qed.

Lemma X10_witness :
  gatherNetworkInfo netDown
    (withNetwork freshWorld (lookupResult (JObj ∅) "https://httpbin.org/ip"))
  = (Normal tt,
     logged (withNetwork freshWorld
               (lookupResult (JObj ∅) "https://httpbin.org/ip")) ipServices).
Proof.
  exact (proj1 (X10_failed_rerun_keeps_old_result netDown ipServices
                  (withNetwork freshWorld
                     (lookupResult (JObj ∅) "https://httpbin.org/ip"))
                  _ eq_refl eq_refl)).
Defined.

(** X11.  The status of a response has no part in the lookup: rewriting
    the status of every response in any way changes neither the result nor
    the requests sent. *)
Theorem X11_status_is_never_read
        (f : nat -> string -> nat -> nat)
        (net : nat -> string -> FetchOutcome)
        (services : list string) (w : World) :
  gatherNetworkInfoFrom (mapStatus f net) services w
  = gatherNetworkInfoFrom net services w.
Proof.
  apply gather_blind. intros n url. unfold mapStatus.
  destruct (net n url) as [why msg | st [msg | v]].
  - left. split; reflexivity.
  - left. split; reflexivity.
  - right. eauto.
Qed.

(** X12.  The record made from an answer holds [publicIP], [ipService],
    an empty [headers] and, of the five optional properties, exactly those
    whose value in the answer is truthy, under the record's names
    ([org] as [organization], [as] as [autonomous_system]); no other
    property of the answer is kept. *)
Theorem X12_record_is_exactly_the_known_fields
        (net : nat -> string -> FetchOutcome)
        (pre post : list string) (service : string) (w : World)
        (st : nat) (data : JSValue) :
  allFail net (length (requests w)) pre = true ->
  net (length (requests w) + length pre) service = Responded st (Parsed data) ->
  nullish data = false ->
  exists (w' : World) (obj : gmap string JSValue),
    gatherNetworkInfoFrom net (pre ++ service :: post)%list w = (Normal tt, w')
    /\ network (this_data w') = Some obj
    /\ obj !! "headers" = Some (JObj ∅)
    /\ (forall key field,
           In (key, field) enrichmentFields ->
           obj !! field
           = if toBoolean (member data key) then Some (member data key)
             else None)
    /\ (forall key, is_Some (obj !! key) -> In key recordFields).
Proof.
  intros Hpre Ho Hn.
  exists (withNetwork (logged w (pre ++ [service])%list) (lookupResult data service)),
         (lookupResult data service).
  split; [exact (gather_success net pre post service w st data Hpre Ho Hn)|].
  split; [reflexivity|].
  split; [apply lookupResult_headers|].
  split; [intros key field; apply lookupResult_enrichment|].
  intros key. apply lookupResult_fields.
Qed.

Lemma X12_witness :
  exists (w' : World) (obj : gmap string JSValue),
    gatherNetworkInfo netRichAnswer freshWorld = (Normal tt, w')
    /\ network (this_data w') = Some obj
    /\ obj !! "headers" = Some (JObj ∅)
    /\ (forall key field,
           In (key, field) enrichmentFields ->
           obj !! field
           = if toBoolean (member richAnswer key)
             then Some (member richAnswer key) else None)
    /\ (forall key, is_Some (obj !! key) -> In key recordFields).
Proof.
  exact (X12_record_is_exactly_the_known_fields netRichAnswer []
           ["https://httpbin.org/ip"; "https://api.myip.com";
            "https://ipapi.co/json/"]
           "https://api.ipify.org?format=json" freshWorld 200 richAnswer
           eq_refl eq_refl eq_refl).
Defined.

(** What the record of that answer is. *)
Example rich_answer_record :
  gatherNetworkInfo netRichAnswer freshWorld
  = (Normal tt,
     withNetwork (logged freshWorld ["https://api.ipify.org?format=json"])
       (<["organization" := JStr "Example Net"]>
          (<["country" := JStr "IT"]>
             (<["publicIP" := JStr "198.51.100.7"]>
                (<["ipService" := JStr "https://api.ipify.org?format=json"]>
                   (<["headers" := JObj ∅]> ∅)))))).
Proof. vm_compute. reflexivity. Qed.

(** ** Rendering *)

Section RenderingFacts.
Variable numberToString : spec_float -> string.

Lemma includes_app_left (a b x : string) :
  includes a x = true -> includes (a ++ b) x = true.
Proof.
  intros H. destruct (includes_inv _ _ H) as (pre & post & ->).
  rewrite !append_assoc. apply includes_token.
Qed.

Lemma createInfoItems_app (a b : list (string * JSValue)) :
  createInfoItems numberToString (a ++ b)%list
  = createInfoItems numberToString a ++ createInfoItems numberToString b.
Proof.
  induction a as [|item a IH]; [reflexivity|].
  change ((item :: a) ++ b)%list with (item :: (a ++ b))%list.
  cbn [createInfoItems]. rewrite IH, append_assoc. reflexivity.
Qed.

Lemma orNotAvailable_truthy (v : JSValue) :
  toBoolean (orNotAvailable v) = true.
Proof. unfold orNotAvailable. destruct (toBoolean v) eqn:E; [exact E | reflexivity]. Qed.

Lemma orNotAvailable_idem (v : JSValue) :
  orNotAvailable (orNotAvailable v) = orNotAvailable v.
Proof.
  unfold orNotAvailable at 1. rewrite orNotAvailable_truthy. reflexivity.
Qed.

Lemma infoItem_includes_value (label s : string) :
  s <> EmptyString ->
  includes (infoItem numberToString (label, JStr s)) s = true.
Proof.
  intros Hne. unfold infoItem, orNotAvailable.
  assert (Ht : toBoolean (JStr s) = true).
  { simpl. apply negb_true_iff, String.eqb_neq, Hne. }
  rewrite Ht. cbn [toString].
  repeat first [ solve [apply includes_startsWith, startsWith_app]
               | apply includes_app_r ].
Qed.

Lemma setInnerHTML_ok (id html old : string) (page : gmap string string) :
  page !! id = Some old ->
  setInnerHTML id html page = (Normal tt, <[id := html]> page).
Proof. unfold setInnerHTML. intros ->. reflexivity. Qed.

End RenderingFacts.

(** X13.  [createInfoItems] renders each row by itself and in order: the
    markup of two lists of rows put together is the markup of the first
    followed by the markup of the second, with nothing in between. *)
Theorem X13_rows_are_rendered_one_by_one
        (numberToString : spec_float -> string)
        (a b : list (string * JSValue)) :
  createInfoItems numberToString (a ++ b)%list
  = createInfoItems numberToString a ++ createInfoItems numberToString b.
Proof. apply createInfoItems_app. Qed.

(** X14.  A row whose value is falsy (zero, the empty text, [false],
    [null], [undefined]) is rendered exactly as if its value were the text
    "Not available", wherever it stands in the list. *)
Theorem X14_falsy_values_read_not_available
        (numberToString : spec_float -> string)
        (before after : list (string * JSValue))
        (label : string) (v : JSValue) :
  toBoolean v = false ->
  createInfoItems numberToString (before ++ (label, v) :: after)%list
  = createInfoItems numberToString
      (before ++ (label, JStr "Not available") :: after)%list.
Proof.
  intros Hv. rewrite !createInfoItems_app. f_equal.
  cbn [createInfoItems]. f_equal.
  unfold infoItem, orNotAvailable. rewrite Hv. reflexivity.
Qed.

Lemma X14_witness :
  createInfoItems (fun _ => "0")
    [("CPU Cores", JStr "8"); ("Max Touch Points", JNum (S754_zero false))]
  = createInfoItems (fun _ => "0")
      [("CPU Cores", JStr "8"); ("Max Touch Points", JStr "Not available")].
Proof.
  exact (X14_falsy_values_read_not_available (fun _ => "0")
           [("CPU Cores", JStr "8")] [] "Max Touch Points"
           (JNum (S754_zero false)) eq_refl).
Defined.

(** X15.  The network rows depend on seven properties of the lookup result
    and on nothing else: two results that agree on [publicIP], [country],
    [city], [region], [organization], [autonomous_system] and [ipService]
    are displayed identically, so [error] and [headers] are never shown. *)
Theorem X15_only_seven_fields_are_shown
        (numberToString : spec_float -> string)
        (d d' : Data) (o o' : gmap string JSValue)
        (page : gmap string string) :
  network d = Some o ->
  network d' = Some o' ->
  (forall key, In key shownFields -> o !! key = o' !! key) ->
  displayNetworkInfo numberToString d page
  = displayNetworkInfo numberToString d' page.
Proof.
  intros Hd Hd' Hsame. unfold displayNetworkInfo. rewrite Hd, Hd'.
  unfold networkRows, field.
  rewrite !(Hsame _) by (simpl; tauto). reflexivity.
Qed.

Lemma X15_witness :
  displayNetworkInfo (fun _ => "0")
    {| browser := None; system := None; network := Some failureMarker |}
    pageWithNetworkInfo
  = displayNetworkInfo (fun _ => "0")
      {| browser := None; system := None;
         network :=
           Some (<["publicIP" :=
                     JStr "Unable to determine (CORS/Network restrictions)"]> ∅) |}
      pageWithNetworkInfo.
Proof.
  apply (X15_only_seven_fields_are_shown (fun _ => "0") _ _ failureMarker
           (<["publicIP" :=
                JStr "Unable to determine (CORS/Network restrictions)"]> ∅));
    [reflexivity | reflexivity |].
  intros key Hin. simpl in Hin.
  repeat match type of Hin with
         | _ \/ _ => destruct Hin as [<- | Hin]
         end; try contradiction; reflexivity.
Defined.

(** X16.  A service can keep the network rows from being shown: when the
    answer that is accepted has, for one of the five optional properties,
    an object with a [toString] property of its own, the lookup succeeds
    but [displayNetworkInfo] then throws while it builds the markup, and
    the page is as it was before, whether or not it has the element. *)
Theorem X16_unprintable_value_blocks_the_rows
        (numberToString : spec_float -> string)
        (net : nat -> string -> FetchOutcome)
        (pre post : list string) (service : string) (w : World)
        (st : nat) (data : JSValue) (key prop : string)
        (m : gmap string JSValue) (x : JSValue)
        (page : gmap string string) :
  allFail net (length (requests w)) pre = true ->
  net (length (requests w) + length pre) service = Responded st (Parsed data) ->
  In (key, prop) enrichmentFields ->
  member data key = JObj m ->
  m !! "toString" = Some x ->
  exists (w' : World) (e : Exn),
    gatherNetworkInfoFrom net (pre ++ service :: post)%list w = (Normal tt, w')
    /\ displayNetworkInfo numberToString (this_data w') page = (Throw e, page).
Proof.
  intros Hpre Ho Hin Hkey Hm.
  assert (Hn : nullish data = false).
  { destruct data; try reflexivity; discriminate. }
  eexists _, conversionError.
  split; [exact (gather_success net pre post service w st data Hpre Ho Hn)|].
  unfold displayNetworkInfo. cbn [withNetwork this_data network].
  replace (rowsThrow (networkRows (lookupResult data service))) with true;
    [reflexivity|].
  symmetry. apply existsb_exists.
  assert (Hfield : field (lookupResult data service) prop = JObj m).
  { unfold field.
    rewrite (lookupResult_enrichment data service key prop Hin), Hkey.
    reflexivity. }
  assert (Hthrows : forall label : string,
             toStringThrows
               (orNotAvailable
                  (snd (label,
                        orNotAvailable (field (lookupResult data service)
                                          prop))))
             = true).
  { intros label. rewrite Hfield. simpl. rewrite Hm. reflexivity. }
  simpl in Hin.
  repeat match type of Hin with
         | _ \/ _ => destruct Hin as [Hin | Hin]
         end; try contradiction; injection Hin as <- <-.
  - exists ("Country", orNotAvailable (field (lookupResult data service) "country")).
    split; [simpl; tauto | apply Hthrows].
  - exists ("City", orNotAvailable (field (lookupResult data service) "city")).
    split; [simpl; tauto | apply Hthrows].
  - exists ("Region", orNotAvailable (field (lookupResult data service) "region")).
    split; [simpl; tauto | apply Hthrows].
  - exists ("Organization", orNotAvailable (field (lookupResult data service) "organization")).
    split; [simpl; tauto | apply Hthrows].
  - exists ("Autonomous System", orNotAvailable (field (lookupResult data service) "autonomous_system")).
    split; [simpl; tauto | apply Hthrows].
Qed.

Lemma X16_witness :
  exists (w' : World) (e : Exn),
    gatherNetworkInfo netUnprintableAnswer freshWorld = (Normal tt, w')
    /\ displayNetworkInfo (fun _ => "0") (this_data w') pageWithNetworkInfo
       = (Throw e, pageWithNetworkInfo).
Proof.
  apply (X16_unprintable_value_blocks_the_rows (fun _ => "0")
           netUnprintableAnswer []
           ["https://httpbin.org/ip"; "https://api.myip.com";
            "https://ipapi.co/json/"]
           "https://api.ipify.org?format=json" freshWorld 200
           unprintableAnswer "country" "country"
           (<["toString" := JStr "x"]> ∅) (JStr "x") pageWithNetworkInfo);
    try reflexivity.
  simpl. tauto.
Defined.

(** X17.  The address text of the answer reaches the page as it is: when
    the answering service gives a non-empty text as [ip], and none of the
    optional values of the answer is one whose conversion to text throws,
    the markup that [displayNetworkInfo] then assigns to "networkInfo"
    contains that text character for character, markup in it included. *)
Theorem X17_address_is_written_unescaped
        (numberToString : spec_float -> string)
        (net : nat -> string -> FetchOutcome)
        (pre post : list string) (service : string) (w : World)
        (st : nat) (data : JSValue) (payload old : string)
        (page : gmap string string) :
  allFail net (length (requests w)) pre = true ->
  net (length (requests w) + length pre) service = Responded st (Parsed data) ->
  member data "ip" = JStr payload ->
  payload <> EmptyString ->
  (forall key field,
      In (key, field) enrichmentFields ->
      toStringThrows (member data key) = false) ->
  page !! "networkInfo" = Some old ->
  exists (w' : World) (html : string),
    gatherNetworkInfoFrom net (pre ++ service :: post)%list w = (Normal tt, w')
    /\ displayNetworkInfo numberToString (this_data w') page
       = (Normal tt, <["networkInfo" := html]> page)
    /\ includes html payload = true.
Proof.
  intros Hpre Ho Hip Hne Hprint Hpage.
  assert (Hn : nullish data = false).
  { destruct data; try reflexivity; discriminate. }
  assert (Hpick : pickIP data = JStr payload).
  { unfold pickIP. rewrite Hip. simpl.
    destruct (String.eqb payload EmptyString) eqn:E; [|reflexivity].
    apply String.eqb_eq in E. contradiction. }
  assert (Hrows : rowsThrow (networkRows (lookupResult data service)) = false).
  { unfold rowsThrow, networkRows, field. cbn [existsb snd].
    rewrite lookupResult_publicIP, lookupResult_ipService, Hpick.
    rewrite (lookupResult_enrichment data service "country" "country"),
      (lookupResult_enrichment data service "city" "city"),
      (lookupResult_enrichment data service "region" "region"),
      (lookupResult_enrichment data service "org" "organization"),
      (lookupResult_enrichment data service "as" "autonomous_system")
      by (simpl; tauto).
    assert (Hrow : forall key field,
               In (key, field) enrichmentFields ->
               toStringThrows
                 (orNotAvailable
                    (orNotAvailable
                       (default JUndefined
                          (if toBoolean (member data key)
                           then Some (member data key) else None))))
               = false).
    { intros key field Hin. unfold orNotAvailable.
      destruct (toBoolean (member data key)) eqn:Ht; cbn [default from_option id].
      - rewrite Ht, Ht. exact (Hprint key field Hin).
      - reflexivity. }
    rewrite (Hrow "country" "country"), (Hrow "city" "city"),
      (Hrow "region" "region"), (Hrow "org" "organization"),
      (Hrow "as" "autonomous_system") by (simpl; tauto).
    unfold orNotAvailable. cbn [default from_option id].
    assert (Ht : toBoolean (JStr payload) = true).
    { simpl. apply negb_true_iff, String.eqb_neq, Hne. }
    rewrite Ht. cbn [toStringThrows orb].
    destruct (toBoolean (JStr service)) eqn:Es; cbn iota; rewrite ?Es;
      reflexivity. }
  eexists _, _.
  split; [exact (gather_success net pre post service w st data Hpre Ho Hn)|].
  unfold displayNetworkInfo. cbn [withNetwork this_data network].
  rewrite Hrows.
  split; [apply (setInnerHTML_ok _ _ old), Hpage|].
  unfold networkRows at 1. cbn [createInfoItems].
  apply includes_app_left.
  unfold field. rewrite lookupResult_publicIP. cbn [default from_option id].
  rewrite Hpick. apply infoItem_includes_value, Hne.
Qed.

Lemma X17_witness :
  exists (w' : World) (html : string),
    gatherNetworkInfo netMarkupAnswer freshWorld = (Normal tt, w')
    /\ displayNetworkInfo (fun _ => "0") (this_data w') pageWithNetworkInfo
       = (Normal tt, <["networkInfo" := html]> pageWithNetworkInfo)
    /\ includes html markupPayload = true.
Proof.
  apply (X17_address_is_written_unescaped (fun _ => "0") netMarkupAnswer []
           ["https://httpbin.org/ip"; "https://api.myip.com";
            "https://ipapi.co/json/"]
           "https://api.ipify.org?format=json" freshWorld 200
           (JObj (<["ip" := JStr markupPayload]> ∅)) markupPayload
           loadingMarkup pageWithNetworkInfo);
    try reflexivity; try discriminate.
  intros key field Hin. simpl in Hin.
  repeat match type of Hin with
         | _ \/ _ => destruct Hin as [Hin | Hin]
         end; try contradiction; injection Hin as <- <-; reflexivity.
Defined.

(** ** The last number of a version is taken whole *)

Section Greedy.
Context {A : Type}.

Lemma star_greedy (c : charclass) (s : string) (k : string -> option A) (x : A) :
  (forall s', exists y, k s' = Some y) ->
  star c s k = Some x ->
  exists ds rest,
    s = ds ++ rest /\ allIn (inClass c) ds = true
    /\ headIs (inClass c) rest = false /\ k rest = Some x.
Proof.
  intros Hk. induction s as [|a s IH]; intros H.
  - exists EmptyString, EmptyString. auto.
  - simpl in H. destruct (inClass c a) eqn:Ha.
    + destruct (star_reaches c s k (Hk s)) as [y Hy]. rewrite Hy in H.
      injection H as ->. destruct (IH Hy) as (ds & rest & -> & Hds & Hh & Hr).
      exists (String a ds), rest. simpl. rewrite Ha, Hds. auto.
    + exists EmptyString, (String a s). simpl. auto.
Qed.

Lemma plus_greedy (c : charclass) (s : string) (k : string -> option A) (x : A) :
  (forall s', exists y, k s' = Some y) ->
  plus c s k = Some x ->
  exists ds rest,
    s = ds ++ rest /\ ds <> EmptyString /\ allIn (inClass c) ds = true
    /\ headIs (inClass c) rest = false /\ k rest = Some x.
Proof.
  intros Hk. destruct s as [|a s]; [discriminate|]. simpl.
  destruct (inClass c a) eqn:Ha; [|discriminate]. intros H.
  destruct (star_greedy c s k x Hk H) as (ds & rest & -> & Hds & Hh & Hr).
  exists (String a ds), rest. simpl. rewrite Ha, Hds.
  repeat split; auto; discriminate.
Qed.

(** A captured [major.minor] at the end of a pattern stops only where the
    digits stop. *)
Lemma group_majorMinor_greedy (s : string) (cap : option string)
      (k : string -> option string -> option A) (x : A) :
  (forall s' c, exists y, k s' c = Some y) ->
  matchHere (Group majorMinor) s cap k = Some x ->
  exists g rest,
    s = g ++ rest /\ isMajorMinor g /\ headIs isDigit rest = false
    /\ k rest (Some g) = Some x.
Proof.
  intros Hk H. unfold majorMinor in H. cbn [matchHere] in H.
  apply plus_inv in H as (a & r1 & -> & Hane & Ha & H).
  destruct (startsWith r1 ".") eqn:Hdot; [|discriminate].
  rewrite (startsWith_split _ _ Hdot) in *.
  set (r2 := sliceFrom (String.length ".") r1) in *. clearbody r2.
  rewrite sliceFrom_app in H.
  apply plus_greedy in H as (b & rest & -> & Hbne & Hb & Hrest & H);
    [|intros s'; apply Hk].
  exists (a ++ "." ++ b), rest.
  split; [rewrite !append_assoc; reflexivity|].
  split; [exists a, b; repeat split; assumption|].
  split; [exact Hrest|].
  replace (a ++ "." ++ b ++ rest) with ((a ++ "." ++ b) ++ rest) in H
    by (rewrite !append_assoc; reflexivity).
  rewrite sliceTo_consumed in H. exact H.
Qed.

End Greedy.

Section GreedySearch.

Lemma jsMatch_cut (r : regex) (s g : string) (P : string -> Prop) :
  (forall t, matchAt r t = Some g -> P t) ->
  jsMatch s r = Some g -> exists pre t, s = pre ++ t /\ P t.
Proof.
  intros HP. induction s as [|a s IH]; intros H; cbn [jsMatch] in H.
  - destruct (matchAt r EmptyString) as [g'|] eqn:E; [|discriminate].
    injection H as ->. exists EmptyString, EmptyString. auto.
  - destruct (matchAt r (String a s)) as [g'|] eqn:E.
    + injection H as ->. exists EmptyString, (String a s). auto.
    + destruct (IH H) as (pre & t & -> & Ht).
      exists (String a pre), t. auto.
Qed.

Lemma jsMatch_token_version_whole (L ua g : string) :
  jsMatch ua (Seq (Lit L) (Group majorMinor)) = Some g ->
  exists pre post,
    ua = pre ++ L ++ g ++ post /\ headIs isDigit post = false.
Proof.
  intros H.
  apply (jsMatch_cut _ _ _
           (fun t => exists post,
                t = L ++ g ++ post /\ headIs isDigit post = false)) in H.
  - destruct H as (pre & t & -> & post & -> & Hpost). eauto.
  - intros t Ht. unfold matchAt in Ht. cbn [matchHere] in Ht.
    destruct (startsWith t L) eqn:HL; [|discriminate].
    rewrite (startsWith_split _ _ HL).
    fold (matchHere (A:=string) (Group majorMinor)) in Ht.
    change (matchHere (Group majorMinor) (sliceFrom (String.length L) t) None
              (fun _ cap => Some (groupText cap)) = Some g) in Ht.
    apply group_majorMinor_greedy in Ht
        as (g' & rest & -> & _ & Hrest & Hg); [|eauto].
    injection Hg as <-. eauto.
Qed.

Lemma jsMatch_opera_whole (ua g : string) :
  jsMatch ua reOpera = Some g ->
  exists tok pre post,
    (tok = "Opera/" \/ tok = "OPR/")
    /\ ua = pre ++ tok ++ g ++ post /\ headIs isDigit post = false.
Proof.
  intros H.
  apply (jsMatch_cut _ _ _
           (fun t => exists tok post,
                (tok = "Opera/" \/ tok = "OPR/")
                /\ t = tok ++ g ++ post /\ headIs isDigit post = false)) in H.
  - destruct H as (pre & t & -> & tok & post & Htok & -> & Hpost). eauto 7.
  - intros t Ht. unfold matchAt, reOpera in Ht. cbn [matchHere] in Ht.
    assert (Hrest : forall u,
               (if startsWith u "/"
                then matchHere (Group majorMinor)
                       (sliceFrom (String.length "/") u) None
                       (fun _ cap => Some (groupText cap))
                else None) = Some g ->
               exists post, u = "/" ++ g ++ post /\ headIs isDigit post = false).
    { intros u Hu. destruct (startsWith u "/") eqn:Hs; [|discriminate].
      rewrite (startsWith_split _ _ Hs).
      apply group_majorMinor_greedy in Hu
          as (g' & rest & -> & _ & Hrest & Hg); [|eauto].
      injection Hg as <-. eauto. }
    destruct (startsWith t "Opera") eqn:H1.
    + destruct (if startsWith (sliceFrom (String.length "Opera") t) "/"
                then _ else _) as [y|] eqn:Hy in Ht.
      * injection Ht as ->. destruct (Hrest _ Hy) as (post & Hu & Hpost).
        exists "Opera/", post. split; [auto|]. split; [|exact Hpost].
        rewrite (startsWith_split _ _ H1), Hu. reflexivity.
      * destruct (startsWith t "OPR") eqn:H2; [|discriminate].
        destruct (Hrest _ Ht) as (post & Hu & Hpost).
        exists "OPR/", post. split; [auto|]. split; [|exact Hpost].
        rewrite (startsWith_split _ _ H2), Hu. reflexivity.
    + destruct (startsWith t "OPR") eqn:H2; [|discriminate].
      destruct (Hrest _ Ht) as (post & Hu & Hpost).
      exists "OPR/", post. split; [auto|]. split; [|exact Hpost].
      rewrite (startsWith_split _ _ H2), Hu. reflexivity.
Qed.

End GreedySearch.

(** X1.  The browser version is the Unknown sentinel or a [major.minor]
    number that stands in the user agent right after the token of the
    browser named ("Chrome/", "Firefox/", "Version/" for Safari, "Edge/",
    "Opera/" or "OPR/"), and it is taken whole: what follows it in the user
    agent does not start with a digit. *)
Theorem X1_browser_version_comes_from_the_user_agent (ua : string) :
  getBrowserVersion ua = "Unknown"
  \/ (exists tok pre post,
         In (getBrowserName ua, tok) browserVersionTokens
         /\ isMajorMinor (getBrowserVersion ua)
         /\ ua = pre ++ tok ++ getBrowserVersion ua ++ post
         /\ headIs isDigit post = false).
Proof.
  unfold getBrowserVersion. cbv zeta.
  repeat match goal with
         | |- context [String.eqb (getBrowserName ua) ?n] =>
             destruct (String.eqb (getBrowserName ua) n) eqn:?
         end;
    try (left; reflexivity);
    match goal with
    | E : String.eqb _ _ = true |- _ => apply String.eqb_eq in E; rewrite E
    end;
    match goal with
    | |- context [jsMatch ua ?r] => destruct (jsMatch ua r) as [g|] eqn:M
    end;
    try (left; reflexivity); right.
  - destruct (jsMatch_token_version _ _ _ M) as [Hv _].
    destruct (jsMatch_token_version_whole _ _ _ M) as (pre & post & Hua & Hp).
    exists "Chrome/", pre, post. simpl. auto.
  - destruct (jsMatch_token_version _ _ _ M) as [Hv _].
    destruct (jsMatch_token_version_whole _ _ _ M) as (pre & post & Hua & Hp).
    exists "Firefox/", pre, post. simpl. auto 7.
  - destruct (jsMatch_token_version _ _ _ M) as [Hv _].
    destruct (jsMatch_token_version_whole _ _ _ M) as (pre & post & Hua & Hp).
    exists "Version/", pre, post. simpl. auto 7.
  - destruct (jsMatch_token_version _ _ _ M) as [Hv _].
    destruct (jsMatch_token_version_whole _ _ _ M) as (pre & post & Hua & Hp).
    exists "Edge/", pre, post. simpl. auto 8.
  - destruct (jsMatch_opera_version _ _ M) as [Hv _].
    destruct (jsMatch_opera_whole _ _ M)
      as (tok & pre & post & [-> | ->] & Hua & Hp);
      [exists "Opera/", pre, post | exists "OPR/", pre, post];
      simpl; auto 10.
Qed.

(** ** Connection information *)

(** X18.  On a host whose [navigator.connection] is missing (or falsy) the
    first five connection rows read "Not available", "Unknown",
    "Unknown Mbps", "Unknown ms" and "Disabled", whatever the location and
    the time zone are. *)
Theorem X18_rows_without_network_information
        (numberToString : spec_float -> string) (env : HostEnv) :
  toBoolean (navConnection env) = false ->
  firstn 5 (connectionRows numberToString (gatherConnectionInfo env))
  = [ ("Connection Type", JStr "Not available");
      ("Effective Type", JStr "Unknown");
      ("Downlink Speed", JStr "Unknown Mbps");
      ("Round Trip Time", JStr "Unknown ms");
      ("Save Data Mode", JStr "Disabled") ].
Proof.
  intros Hc.
  assert (Hopt : forall key, optMember (navConnection env) key = JUndefined).
  { intros key. unfold optMember, member.
    destruct (navConnection env); try reflexivity; discriminate. }
  unfold connectionRows, gatherConnectionInfo, getConnectionType, field,
    plusText, orValue.
  rewrite Hc, !Hopt. reflexivity.
Qed.

Lemma X18_witness :
  firstn 5 (connectionRows (fun _ => "0") (gatherConnectionInfo envNoConnection))
  = [ ("Connection Type", JStr "Not available");
      ("Effective Type", JStr "Unknown");
      ("Downlink Speed", JStr "Unknown Mbps");
      ("Round Trip Time", JStr "Unknown ms");
      ("Save Data Mode", JStr "Disabled") ].
Proof.
  exact (X18_rows_without_network_information (fun _ => "0") envNoConnection
           eq_refl).
Defined.

(** X19.  Whenever [navigator.connection] reports an effective type, the
    connection type stored is that same value: the [type] of the
    connection is used only when no effective type is reported. *)
Theorem X19_effective_type_shadows_type (env : HostEnv) :
  toBoolean (optMember (navConnection env) "effectiveType") = true ->
  gatherConnectionInfo env !! "connectionType"
  = Some (member (navConnection env) "effectiveType")
  /\ gatherConnectionInfo env !! "effectiveType"
     = Some (member (navConnection env) "effectiveType").
Proof.
  intros H. unfold gatherConnectionInfo, getConnectionType, orValue.
  destruct (navConnection env) as [ | | b | f | s | l | m] eqn:Ec;
    try discriminate.
  unfold optMember in *. simpl in H |- *. rewrite H.
  split; reflexivity.
Qed.

Lemma X19_witness :
  gatherConnectionInfo envSlowLink !! "connectionType" = Some (JStr "2g")
  /\ gatherConnectionInfo envSlowLink !! "effectiveType" = Some (JStr "2g").
Proof.
  exact (X19_effective_type_shadows_type envSlowLink eq_refl).
Defined.

(** ** The first occurrence decides *)

Section FirstOccurrence.

Lemma append_cancel_l (L x y : string) : L ++ x = L ++ y -> x = y.
Proof.
  induction L as [|a L IH]; [auto|].
  rewrite !append_cons. intros H. injection H as H. auto.
Qed.

Lemma run_unique (p : ascii -> bool) (a a' r r' : string) :
  allIn p a = true -> allIn p a' = true ->
  headIs p r = false -> headIs p r' = false ->
  a ++ r = a' ++ r' -> a = a' /\ r = r'.
Proof.
  revert a'. induction a as [|x a IH]; intros [|y a'] Ha Ha' Hr Hr' E.
  - auto.
  - exfalso. simpl in Ha'. apply andb_true_iff in Ha' as [Hy _].
    change (r = String y (a' ++ r')) in E. subst r. simpl in Hr. congruence.
  - exfalso. simpl in Ha. apply andb_true_iff in Ha as [Hx _].
    change (String x (a ++ r) = r') in E. subst r'. simpl in Hr'. congruence.
  - rewrite !append_cons in E. injection E as -> E.
    simpl in Ha, Ha'. apply andb_true_iff in Ha as [_ Ha].
    apply andb_true_iff in Ha' as [_ Ha'].
    destruct (IH a' Ha Ha' Hr Hr' E) as [-> ->]. auto.
Qed.

Lemma matchAt_token_version_whole (L t g : string) :
  matchAt (Seq (Lit L) (Group majorMinor)) t = Some g ->
  exists post,
    t = L ++ g ++ post /\ isMajorMinor g /\ headIs isDigit post = false.
Proof.
  intros Ht. unfold matchAt in Ht. cbn [matchHere] in Ht.
  destruct (startsWith t L) eqn:HL; [|discriminate].
  rewrite (startsWith_split _ _ HL).
  change (matchHere (Group majorMinor) (sliceFrom (String.length L) t) None
            (fun _ cap => Some (groupText cap)) = Some g) in Ht.
  apply group_majorMinor_greedy in Ht
      as (g' & rest & -> & Hv & Hrest & Hg); [|eauto].
  injection Hg as <-. eauto.
Qed.

(** At an occurrence of the token followed by [a.b] and no further digit,
    the pattern captures exactly [a.b]. *)
Lemma matchAt_token_version_exact (L a b post : string) :
  isNumber a -> isNumber b -> headIs isDigit post = false ->
  matchAt (Seq (Lit L) (Group majorMinor)) (L ++ a ++ "." ++ b ++ post)
  = Some (a ++ "." ++ b).
Proof.
  intros Ha Hb Hpost.
  destruct (matchAt_token_version_accepts L a b post Ha Hb) as [g Hg].
  rewrite !append_assoc in Hg. rewrite Hg. f_equal.
  apply matchAt_token_version_whole in Hg
      as (rest & E & (a' & b' & Ha' & Hb' & ->) & Hrest).
  apply append_cancel_l in E. rewrite !append_assoc in E.
  destruct Ha as [_ Ha], Hb as [_ Hb], Ha' as [_ Ha'], Hb' as [_ Hb'].
  apply (run_unique isDigit) in E as [<- E]; auto.
  apply (append_cancel_l ".") in E.
  apply (run_unique isDigit) in E as [<- _]; auto.
Qed.

End FirstOccurrence.

(** X20.  For Chrome, Firefox, Safari and Edge the browser version is the
    [major.minor] that follows the first occurrence of the browser's token
    ("Chrome/", "Firefox/", "Version/", "Edge/"), whatever that number is,
    provided no further digit follows it. *)
Theorem X20_version_after_first_token
        (ua name tok pre a b post : string) :
  In (name, tok) simpleVersionTokens ->
  getBrowserName ua = name ->
  ua = pre ++ tok ++ a ++ "." ++ b ++ post ->
  includes pre tok = false ->
  isNumber a -> isNumber b -> headIs isDigit post = false ->
  getBrowserVersion ua = a ++ "." ++ b.
Proof.
  intros Hin Hname Hua Hpre Ha Hb Hpost.
  assert (Hm : unbordered tok = true ->
               jsMatch ua (Seq (Lit tok) (Group majorMinor))
               = Some (a ++ "." ++ b)).
  { intros Hub. rewrite Hua.
    apply jsMatch_first; auto using startsWith_app,
                           matchAt_token_version_exact. }
  unfold getBrowserVersion. cbv zeta. rewrite Hname. simpl in Hin.
  repeat match type of Hin with
         | _ \/ _ => destruct Hin as [Hin | Hin]
         end; try contradiction;
    injection Hin as <- <-; simpl;
    [unfold reChrome | unfold reFirefox | unfold reVersion | unfold reEdge];
    rewrite (Hm eq_refl); reflexivity.
Qed.

Lemma X20_witness : getBrowserVersion uaFirefoxLinux = "121.0".
Proof.
  apply (X20_version_after_first_token uaFirefoxLinux "Firefox" "Firefox/"
           "Mozilla/5.0 (X11; Linux x86_64; rv:121.0) Gecko/20100101 "
           "121" "0" EmptyString);
    try reflexivity; try (split; [discriminate | reflexivity]).
  simpl. tauto.
Defined.

(** X21.  The OS version is the [major.minor] that follows the first
    "Windows NT " of the user agent, whatever that number is, provided no
    further digit follows it; and, in a user agent without "Windows NT "
    and without "Mac OS X ", the [major.minor] that follows the first
    "Android " in the same way. *)
Theorem X21_os_version_after_first_token
        (ua tok pre a b post : string) :
  tok = "Windows NT "
  \/ (tok = "Android "
      /\ includes ua "Windows NT " = false
      /\ includes ua "Mac OS X " = false) ->
  ua = pre ++ tok ++ a ++ "." ++ b ++ post ->
  includes pre tok = false ->
  isNumber a -> isNumber b -> headIs isDigit post = false ->
  getOSVersion ua = a ++ "." ++ b.
Proof.
  intros Htok Hua Hpre Ha Hb Hpost.
  assert (Hm : unbordered tok = true ->
               jsMatch ua (Seq (Lit tok) (Group majorMinor))
               = Some (a ++ "." ++ b)).
  { intros Hub. rewrite Hua.
    apply jsMatch_first; auto using startsWith_app,
                           matchAt_token_version_exact. }
  unfold getOSVersion.
  destruct Htok as [-> | (-> & Hnt & Hmac)].
  - unfold reWindowsNT. rewrite (Hm eq_refl). reflexivity.
  - unfold reWindowsNT, reMacOSX.
    rewrite (jsMatch_lit_absent _ _ _ Hnt), (jsMatch_lit_absent _ _ _ Hmac).
    unfold reAndroid. rewrite (Hm eq_refl). reflexivity.
Qed.

Lemma X21_witness : getOSVersion uaAndroidLinux = "13.0".
Proof.
  apply (X21_os_version_after_first_token uaAndroidLinux "Android "
           "Mozilla/5.0 (Linux; " "13" "0"
           "; Pixel 7) AppleWebKit/537.36 (KHTML, like Gecko) Chrome/120.0.0.0 Mobile Safari/537.36");
    try reflexivity; try (split; [discriminate | reflexivity]).
  right. repeat split; reflexivity.
Defined.
